(** * MacDevTUI: the terminal UI state machine

    A shallow embedding of the Model/Update/View core of MacDevTUI
    (main.go, models.go, config.go and the message type of installer.go)
    together with the properties of its transition function, its key
    handler, its layout computation and its constructor. *)

From Stdlib Require Import ZArith String Ascii List Bool Lia Sorted.
From stdpp Require Import base list.
Import ListNotations.

Local Open Scope string_scope.

(** ** Go's [int]

    [int] is a 64-bit two's-complement integer on every platform the
    program is built for.  Values are carried as [Z]; additions and
    subtractions wrap around, division truncates toward zero. *)

Module GoInt.

Definition maxInt : Z := 2 ^ 63 - 1.
Definition minInt : Z := - 2 ^ 63.

Definition inRange (z : Z) : Prop := (minInt <= z <= maxInt)%Z.

Definition wrap (z : Z) : Z := ((z + 2 ^ 63) mod 2 ^ 64 - 2 ^ 63)%Z.

Definition add (a b : Z) : Z := wrap (a + b).
Definition sub (a b : Z) : Z := wrap (a - b).
Definition quot (a b : Z) : Z := wrap (Z.quot a b).

(** [len(s)] of a slice. *)
Definition len {A} (s : list A) : Z := Z.of_nat (length s).

(** A slice never holds more than [maxInt] elements. *)
Definition sliceOk {A} (s : list A) : Prop := (len s <= maxInt)%Z.

End GoInt.

(** ** Strings *)

(** [strings.HasPrefix(s, p)]. *)
Fixpoint HasPrefix (s p : string) : bool :=
  match p, s with
  | EmptyString, _ => true
  | String _ _, EmptyString => false
  | String b p', String a s' => Ascii.eqb a b && HasPrefix s' p'
  end.

(** [strings.Contains(s, substr)]: some suffix of [s] starts with
    [substr]. *)
Fixpoint Contains (s substr : string) : bool :=
  HasPrefix s substr ||
  match s with
  | EmptyString => false
  | String _ s' => Contains s' substr
  end.

(** [strings.Join(elems, sep)]. *)
Fixpoint Join (elems : list string) (sep : string) : string :=
  match elems with
  | [] => EmptyString
  | [e] => e
  | e :: rest => e ++ sep ++ Join rest sep
  end.

Definition newline : string := String (ascii_of_nat 10) EmptyString.

(** The decimal rendering of a non-negative [int] by the [%d] verb. *)
Definition digit (n : nat) : string :=
  String (ascii_of_nat (48 + n)) EmptyString.

Fixpoint decimalFuel (fuel n : nat) (acc : string) : string :=
  match fuel with
  | O => acc
  | S fuel' =>
      let acc' := digit (n mod 10) ++ acc in
      if Nat.ltb n 10 then acc' else decimalFuel fuel' (n / 10) acc'
  end.

Definition decimal (n : nat) : string := decimalFuel (S n) n EmptyString.

(** ** models.go: steps *)

Inductive InstallStatus : Set :=
| StatusReady
| StatusInProgress
| StatusComplete
| StatusError.

Module SetupStep.

Record t : Set := mk {
  ID : string;
  Title : string;
  Icon : string;
  Description : string;
  Items : list string;
  EstTime : Z;             (* time.Duration, in nanoseconds *)
  Status : InstallStatus;
  Error : string;
  Progress : Z;            (* 0-100 *)
  Enabled : bool
}.

Definition withStatus (v : InstallStatus) (s : t) : t :=
  mk (ID s) (Title s) (Icon s) (Description s) (Items s) (EstTime s)
     v (Error s) (Progress s) (Enabled s).

Definition withError (v : string) (s : t) : t :=
  mk (ID s) (Title s) (Icon s) (Description s) (Items s) (EstTime s)
     (Status s) v (Progress s) (Enabled s).

Definition withEnabled (v : bool) (s : t) : t :=
  mk (ID s) (Title s) (Icon s) (Description s) (Items s) (EstTime s)
     (Status s) (Error s) (Progress s) v.

End SetupStep.

Abbreviation SetupStep := SetupStep.t.

(** ** installer.go: the progress/result message *)

Module InstallMsg.

(** [Error] is Go's [error] interface: [None] is [nil], [Some e] is an
    error whose [Error()] text is [e]. *)
Record t : Set := mk {
  StepID : string;
  Status : InstallStatus;
  Progress : Z;
  Message : string;
  Error : option string
}.

End InstallMsg.

Abbreviation InstallMsg := InstallMsg.t.

(** ** main.go: notifications, layouts, the model *)

Module Notification.

(** The Go field [Type] is spelled [Type_] here. *)
Record t : Set := mk {
  Title : string;
  Message : string;
  Type_ : string          (* "info", "success", "error" *)
}.

End Notification.

Abbreviation Notification := Notification.t.

Inductive KeyboardLayout : Set :=
| QWERTY
| ColemakDH.

(** ** config.go: the installer configuration

    Go's maps are visited by [range] in an unspecified order; a map is
    carried as the list of its entries in the order the loop visits
    them. *)

Record HombrewConfig : Set := {
  HombrewConfig_Install : bool;
  BrewfilePaths : list string
}.

Record ShellConfig : Set := {
  ShellConfig_Install : bool;
  RequiredTools : list string;
  ShellFiles : list string;
  ThemeFile : string;
  InitCommands : list (list string)
}.

Record Language : Set := {
  Language_Name : string;
  Language_Enabled : bool;
  Commands : list (list string)
}.

Record DevToolsConfig : Set := {
  DevToolsConfig_Install : bool;
  Languages : list Language;
  GlobalTools : list (list string);
  VerifyTools : list string
}.

Record DotfilesConfig : Set := {
  DotfilesConfig_Install : bool;
  Mappings : list (string * string)
}.

Record TerminalConfig : Set := {
  TerminalConfig_Install : bool;
  ConfigFiles : list (string * string)
}.

Record InstallConfig : Set := {
  Homebrew : HombrewConfig;
  Shell : ShellConfig;
  DevTools : DevToolsConfig;
  Dotfiles : DotfilesConfig;
  Terminal : TerminalConfig
}.

(** The session state.  [config] and [notification] are pointers:
    [None] is [nil]. *)
Record Model : Set := mkModel {
  steps : list SetupStep;
  selectedStep : Z;
  keyboardLayout : KeyboardLayout;
  width : Z;
  height : Z;
  installing : bool;
  showHelp : bool;
  currentProgress : Z;
  currentMessage : string;
  config : option InstallConfig;
  notification : option Notification
}.

Definition withSteps (v : list SetupStep) (m : Model) : Model :=
  mkModel v (selectedStep m) (keyboardLayout m) (width m) (height m)
    (installing m) (showHelp m) (currentProgress m) (currentMessage m)
    (config m) (notification m).

Definition withSelectedStep (v : Z) (m : Model) : Model :=
  mkModel (steps m) v (keyboardLayout m) (width m) (height m)
    (installing m) (showHelp m) (currentProgress m) (currentMessage m)
    (config m) (notification m).

Definition withKeyboardLayout (v : KeyboardLayout) (m : Model) : Model :=
  mkModel (steps m) (selectedStep m) v (width m) (height m)
    (installing m) (showHelp m) (currentProgress m) (currentMessage m)
    (config m) (notification m).

Definition withSize (w h : Z) (m : Model) : Model :=
  mkModel (steps m) (selectedStep m) (keyboardLayout m) w h
    (installing m) (showHelp m) (currentProgress m) (currentMessage m)
    (config m) (notification m).

Definition withInstalling (v : bool) (m : Model) : Model :=
  mkModel (steps m) (selectedStep m) (keyboardLayout m) (width m) (height m)
    v (showHelp m) (currentProgress m) (currentMessage m)
    (config m) (notification m).

Definition withShowHelp (v : bool) (m : Model) : Model :=
  mkModel (steps m) (selectedStep m) (keyboardLayout m) (width m) (height m)
    (installing m) v (currentProgress m) (currentMessage m)
    (config m) (notification m).

Definition withCurrentProgress (v : Z) (m : Model) : Model :=
  mkModel (steps m) (selectedStep m) (keyboardLayout m) (width m) (height m)
    (installing m) (showHelp m) v (currentMessage m)
    (config m) (notification m).

Definition withCurrentMessage (v : string) (m : Model) : Model :=
  mkModel (steps m) (selectedStep m) (keyboardLayout m) (width m) (height m)
    (installing m) (showHelp m) (currentProgress m) v
    (config m) (notification m).

Definition withNotification (v : option Notification) (m : Model) : Model :=
  mkModel (steps m) (selectedStep m) (keyboardLayout m) (width m) (height m)
    (installing m) (showHelp m) (currentProgress m) (currentMessage m)
    (config m) v.

(** ** Events and commands *)

(** [tea.Msg] as [Update] inspects it.  A [KeyMsg] carries the text
    [msg.String()] of the key ("up", "enter", " " for the space bar,
    "k", ...); any message of another type is [OtherMsg]. *)
Inductive Msg : Set :=
| WindowSizeMsg (Width Height : Z)
| KeyMsg (key : string)
| InstallEvent (msg : InstallMsg)
| OtherMsg.

(** [tea.Cmd] as the transition function produces it: [nil], [tea.Quit],
    or the closure of [StartInstallation] over the model it was called
    on. *)
Inductive Cmd : Set :=
| CmdNil
| Quit
| StartInstallation (m : Model).

(** ** main.go: the key handler *)

Definition isNil {A} (p : option A) : bool :=
  match p with None => true | Some _ => false end.

Definition keyIs (key : string) (names : list string) : bool :=
  existsb (String.eqb key) names.

(** [m.steps[m.selectedStep].Enabled = !m.steps[m.selectedStep].Enabled]
    under the bounds check of [toggleStep].  The write goes through the
    slice to its backing array, which the caller's copy of the model
    shares; the returned model is the one the event loop keeps. *)
Definition flipEnabled (s : SetupStep) : SetupStep :=
  SetupStep.withEnabled (negb (SetupStep.Enabled s)) s.

Definition toggleStep (m : Model) : Model * Cmd :=
  if (0 <=? selectedStep m)%Z && (selectedStep m <? GoInt.len (steps m))%Z
  then (withSteps (alter flipEnabled (Z.to_nat (selectedStep m)) (steps m)) m,
        CmdNil)
  else (m, CmdNil).

Definition otherLayout (l : KeyboardLayout) : KeyboardLayout :=
  match l with
  | QWERTY => ColemakDH
  | ColemakDH => QWERTY
  end.

(** The bodies of the navigation arms, the same text in both layouts'
    switches: [m.selectedStep--] and [m.selectedStep++] under their
    guards. *)
Definition selectPrevious (m : Model) : Model :=
  if (0 <? selectedStep m)%Z
  then withSelectedStep (GoInt.sub (selectedStep m) 1) m
  else m.

Definition selectNext (m : Model) : Model :=
  if (selectedStep m <? GoInt.sub (GoInt.len (steps m)) 1)%Z
  then withSelectedStep (GoInt.add (selectedStep m) 1) m
  else m.

Definition handleKeypress (m : Model) (key : string) : Model * Cmd :=
  (* notification dismissal first *)
  if negb (isNil (notification m)) && keyIs key ["enter"; "esc"]
  then (withNotification None m, CmdNil)
  (* global shortcuts *)
  else if keyIs key ["q"; "esc"; "ctrl+c"] then (m, Quit)
  else if keyIs key ["?"] then (withShowHelp (negb (showHelp m)) m, CmdNil)
  else if keyIs key ["c"]
  then (withKeyboardLayout (otherLayout (keyboardLayout m)) m, CmdNil)
  else if keyIs key ["s"; "S"]
  then if negb (installing m) && isNil (notification m)
       then let m' := withInstalling true m in (m', StartInstallation m')
       else (m, CmdNil)
  (* navigation based on keyboard layout *)
  else match keyboardLayout m with
       | QWERTY =>
           if keyIs key ["up"; "k"] then (selectPrevious m, CmdNil)
           else if keyIs key ["down"; "j"] then (selectNext m, CmdNil)
           else if keyIs key ["enter"; " "] then toggleStep m
           else (m, CmdNil)
       | ColemakDH =>
           if keyIs key ["up"; "u"] then (selectPrevious m, CmdNil)
           else if keyIs key ["down"; "e"] then (selectNext m, CmdNil)
           else if keyIs key ["enter"; " "] then toggleStep m
           else (m, CmdNil)
       end.

(** ** main.go: the transition function *)

(** The first loop of the [InstallMsg] case: the first step whose [ID]
    is the message's [StepID] takes the message's status and, when the
    message carries an error, its text; the loop then breaks. *)
Definition recordOn (msg : InstallMsg) (step : SetupStep) : SetupStep :=
  let step := SetupStep.withStatus (InstallMsg.Status msg) step in
  match InstallMsg.Error msg with
  | Some e => SetupStep.withError e step
  | None => step
  end.

Fixpoint recordStatus (msg : InstallMsg) (l : list SetupStep)
  : list SetupStep :=
  match l with
  | [] => []
  | step :: rest =>
      if String.eqb (SetupStep.ID step) (InstallMsg.StepID msg)
      then recordOn msg step :: rest
      else step :: recordStatus msg rest
  end.

(** The second loop: every enabled step becomes [StatusComplete]. *)
Definition markComplete (step : SetupStep) : SetupStep :=
  if SetupStep.Enabled step
  then SetupStep.withStatus StatusComplete step
  else step.

Definition completeEnabled (l : list SetupStep) : list SetupStep :=
  markComplete <$> l.

Definition errorNotification (stepID e : string) : Notification :=
  Notification.mk "Installation Error"
    ("Step '" ++ stepID ++ "' failed: " ++ e ++ newline
       ++ "Press Enter to dismiss")
    "error".

Definition completeNotification : Notification :=
  Notification.mk "Installation Complete!"
    ("Report saved to: ./macdevtui-report.md" ++ newline
       ++ "Press Enter to dismiss")
    "success".

Definition foldInstallMsg (m : Model) (msg : InstallMsg) : Model :=
  let m :=
    if negb (String.eqb (InstallMsg.StepID msg) EmptyString)
    then withSteps (recordStatus msg (steps m)) m
    else m in
  let m :=
    match InstallMsg.Error msg with
    | Some e =>
        withNotification
          (Some (errorNotification (InstallMsg.StepID msg) e))
          (withInstalling false m)
    | None => m
    end in
  let m :=
    if (0 <? InstallMsg.Progress msg)%Z
    then withCurrentProgress (InstallMsg.Progress msg) m
    else m in
  let m :=
    if negb (String.eqb (InstallMsg.Message msg) EmptyString)
    then withCurrentMessage (InstallMsg.Message msg) m
    else m in
  if Contains (InstallMsg.Message msg) "complete!"
  then withNotification (Some completeNotification)
         (withSteps (completeEnabled (steps m))
            (withCurrentProgress 100
               (withInstalling false m)))
  else m.

Definition Update (m : Model) (msg : Msg) : Model * Cmd :=
  match msg with
  | WindowSizeMsg w h => (withSize w h m, CmdNil)
  | KeyMsg key => handleKeypress m key
  | InstallEvent im => (foldInstallMsg m im, CmdNil)
  | OtherMsg => (m, CmdNil)
  end.

(** ** main.go: the frame and its layout *)

(** What [View] renders, by the branch it takes, with the dimensions it
    hands to the pane renderers. *)
Inductive Frame : Set :=
| HelpFrame
| LoadingFrame
| TooSmallFrame
| PanesFrame (navWidth detailWidth contentHeight : Z).

(** The three-tier navigation width. *)
Definition tierNavWidth (w : Z) : Z :=
  if (w <? 80)%Z then 25
  else if (w <? 120)%Z then
    let navWidth := GoInt.quot w 4 in
    if (navWidth <? 25)%Z then 25 else navWidth
  else
    let navWidth := GoInt.quot w 3 in
    if (50 <? navWidth)%Z then 50 else navWidth.

(** Whether the detail pane, after the border allowance, comes out
    narrower than 20 columns, so that the navigation width is recomputed. *)
Definition narrowFallback (w : Z) : bool :=
  (GoInt.sub (GoInt.sub w (tierNavWidth w)) 6 <? 20)%Z.

(** [(navWidth, detailWidth)] as [View] computes them. *)
Definition paneWidths (w : Z) : Z * Z :=
  let navWidth := tierNavWidth w in
  let detailWidth := GoInt.sub (GoInt.sub w navWidth) 6 in
  if (detailWidth <? 20)%Z
  then (GoInt.sub (GoInt.sub w 20) 6, 20%Z)
  else (navWidth, detailWidth).

(** The banner is rendered exactly when a notification is set, and its
    text is never empty, so testing the banner for emptiness is
    testing [m.notification != nil]. *)
Definition contentHeight (m : Model) : Z :=
  let h := GoInt.sub (height m) 6 in
  if isNil (notification m) then h else GoInt.sub h 1.

Definition View (m : Model) : Frame :=
  if showHelp m then HelpFrame
  else if (width m =? 0)%Z || (height m =? 0)%Z then LoadingFrame
  else if (width m <? 50)%Z || (height m <? 10)%Z then TooSmallFrame
  else let '(navWidth, detailWidth) := paneWidths (width m) in
       PanesFrame navWidth detailWidth (contentHeight m).

(** ** models.go: the step registry of a configuration *)

Definition minute : Z := 60 * 1000000000.

Definition arrowItem (entry : string * string) : string :=
  fst entry ++ " → " ++ snd entry.

Definition languageItem (lang : Language) : string :=
  let status := if Language_Enabled lang then "enabled" else "disabled" in
  Language_Name lang ++ ": " ++ status ++ " ("
    ++ decimal (length (Commands lang)) ++ " commands)".

Definition homebrewStep (c : InstallConfig) : SetupStep :=
  SetupStep.mk "homebrew" "Homebrew & Packages" "▶"
    "Install Homebrew and packages from Brewfile"
    [ "Homebrew package manager";
      "Brewfile locations: "
        ++ decimal (length (BrewfilePaths (Homebrew c)))
        ++ " paths configured";
      "Packages from: " ++ Join (BrewfilePaths (Homebrew c)) ", " ]
    (15 * minute) StatusReady EmptyString 0 true.

Definition terminalStep (c : InstallConfig) : SetupStep :=
  SetupStep.mk "terminal" "Terminal Configuration" "▶"
    "Configure terminal applications with Catppuccin theme"
    (map arrowItem (ConfigFiles (Terminal c)))
    (2 * minute) StatusReady EmptyString 0 true.

Definition shellStep (c : InstallConfig) : SetupStep :=
  SetupStep.mk "shell" "Shell & Prompt Setup" "▶"
    "Configure Zsh with Oh-My-Posh and productivity tools"
    [ "Required tools: " ++ Join (RequiredTools (Shell c)) ", ";
      "Shell files: " ++ Join (ShellFiles (Shell c)) ", ";
      "Theme file: " ++ ThemeFile (Shell c);
      "Init commands: " ++ decimal (length (InitCommands (Shell c)))
        ++ " configured" ]
    (3 * minute) StatusReady EmptyString 0 true.

Definition devtoolsStep (c : InstallConfig) : SetupStep :=
  SetupStep.mk "devtools" "Development Tools" "▶"
    "Configure development environments and toolchains"
    (map languageItem (Languages (DevTools c))
       ++ ["Verify tools: " ++ Join (VerifyTools (DevTools c)) ", "])
    (5 * minute) StatusReady EmptyString 0 true.

Definition dotfilesStep (c : InstallConfig) : SetupStep :=
  SetupStep.mk "dotfiles" "Restore Dotfiles" "▶"
    "Copy configuration files to their destinations"
    (map arrowItem (Mappings (Dotfiles c)))
    (1 * minute) StatusReady EmptyString 0 true.

Definition verifyStep : SetupStep :=
  SetupStep.mk "verify" "Verify Installation" "▶"
    "Test that all tools are properly installed and accessible"
    [ "Check tool availability in PATH";
      "Validate configurations";
      "Generate installation report" ]
    (2 * minute) StatusReady EmptyString 0 true.

Definition appendIf (b : bool) (s : SetupStep) (l : list SetupStep)
  : list SetupStep :=
  if b then l ++ [s] else l.

Definition getConfigurableSteps (config : option InstallConfig)
  : list SetupStep :=
  match config with
  | None => []
  | Some c =>
      let steps := [] in
      let steps :=
        appendIf (HombrewConfig_Install (Homebrew c)) (homebrewStep c) steps in
      let steps :=
        appendIf (TerminalConfig_Install (Terminal c)) (terminalStep c) steps in
      let steps :=
        appendIf (ShellConfig_Install (Shell c)) (shellStep c) steps in
      let steps :=
        appendIf (DevToolsConfig_Install (DevTools c)) (devtoolsStep c) steps in
      let steps :=
        appendIf (DotfilesConfig_Install (Dotfiles c)) (dotfilesStep c) steps in
      steps ++ [verifyStep]
  end.

(** ** main.go: the constructor

    [LoadConfig] reads the file system; [NewModel] is a function of the
    pair [(config, err)] it returns. *)
Definition LoadResult : Set := option InstallConfig * option string.

Definition configErrorNotification (e : string) : Notification :=
  Notification.mk "Configuration Error"
    ("Failed to load configuration: " ++ e ++ newline ++ "Press q to quit")
    "error".

Definition NewModel (loaded : LoadResult) : Model :=
  let '(config, err) := loaded in
  let '(steps, notification) :=
    match err with
    | Some e => ([], Some (configErrorNotification e))
    | None => (getConfigurableSteps config, None)
    end in
  mkModel steps 0 ColemakDH 0 0 false false 0 "Ready to install"
    config notification.

(** ** Runs of the event loop *)

(** The state after a sequence of events, and the states passed through. *)
Definition step (m : Model) (msg : Msg) : Model := fst (Update m msg).

Definition run (m : Model) (msgs : list Msg) : Model := fold_left step msgs m.

Fixpoint trace (m : Model) (msgs : list Msg) : list Model :=
  m :: match msgs with
       | [] => []
       | msg :: rest => trace (step m msg) rest
       end.

(** ** Vocabulary of the properties *)

(** The progress/result events among all events. *)
Definition feed (msgs : list InstallMsg) : list Msg := InstallEvent <$> msgs.

Definition keys (ks : list string) : list Msg := KeyMsg <$> ks.

(** The selection is an index of the step list. *)
Definition selectionValid (m : Model) : Prop :=
  (0 <= selectedStep m <= GoInt.len (steps m) - 1)%Z.

(** The selected index as a list position. *)
Definition selectedIndex (m : Model) : nat := Z.to_nat (selectedStep m).

(** Navigation keys of either layout. *)
Definition navUpKeys : list string := ["up"; "k"; "u"].
Definition navDownKeys : list string := ["down"; "j"; "e"].
Definition isNavKey (key : string) : Prop :=
  keyIs key (navUpKeys ++ navDownKeys) = true.

(** A notification of a given kind is showing. *)
Definition showsNotification (kind : string) (m : Model) : Prop :=
  exists n, notification m = Some n /\ Notification.Type_ n = kind.

(** Position [i] holds the first step of [l] whose identifier is [id]. *)
Definition firstWithID (l : list SetupStep) (id : string) (i : nat)
  (st : SetupStep) : Prop :=
  l !! i = Some st /\ SetupStep.ID st = id
  /\ forall j st', (j < i)%nat -> l !! j = Some st' -> SetupStep.ID st' <> id.

(** The step at position [i] records the status and error text of a
    failed message. *)
Definition recordsFailure (m' : Model) (i : nat) (status : InstallStatus)
  (e : string) : Prop :=
  exists st', steps m' !! i = Some st'
    /\ SetupStep.Status st' = status /\ SetupStep.Error st' = e.

(** Outcome of folding a message that carries error [e], every step
    identified by the message being updated. *)
Definition failureOutcome (m : Model) (msg : InstallMsg) (e : string)
  (m' : Model) : Prop :=
  installing m' = false
  /\ showsNotification "error" m'
  /\ forall i st, steps m !! i = Some st ->
       SetupStep.ID st = InstallMsg.StepID msg ->
       recordsFailure m' i (InstallMsg.Status msg) e.

(** The same outcome, for the first step with the message's non-empty
    identifier. *)
Definition failureOutcomeFirst (m : Model) (msg : InstallMsg) (e : string)
  (m' : Model) : Prop :=
  installing m' = false
  /\ notification m' = Some (errorNotification (InstallMsg.StepID msg) e)
  /\ showsNotification "error" m'
  /\ forall i st, InstallMsg.StepID msg <> EmptyString ->
       firstWithID (steps m) (InstallMsg.StepID msg) i st ->
       recordsFailure m' i (InstallMsg.Status msg) e.

(** Outcome of folding a message that signals overall completion. *)
Definition completionOutcome (m m' : Model) : Prop :=
  (forall i st, steps m !! i = Some st -> SetupStep.Enabled st = true ->
     exists st', steps m' !! i = Some st'
       /\ SetupStep.Status st' = StatusComplete)
  /\ currentProgress m' = 100%Z
  /\ installing m' = false
  /\ showsNotification "success" m'.

(** The step list after the first loop of the message fold, which runs
    only for a non-empty step identifier. *)
Definition afterRecord (m : Model) (msg : InstallMsg) : list SetupStep :=
  if negb (String.eqb (InstallMsg.StepID msg) EmptyString)
  then recordStatus msg (steps m)
  else steps m.

(** The progress value an event applies: 100 for a completion message,
    the message's own value otherwise. *)
Definition appliedProgress (msg : InstallMsg) : Z :=
  if Contains (InstallMsg.Message msg) "complete!" then 100%Z
  else InstallMsg.Progress msg.

(** The values a feed applies, in order: those greater than 0. *)
Definition appliedValues (msgs : list InstallMsg) : list Z :=
  filter (fun p => (0 <? p)%Z = true) (appliedProgress <$> msgs).

(** The progress readings along a run. *)
Definition progressTrace (m : Model) (msgs : list Msg) : list Z :=
  currentProgress <$> trace m msgs.

(** What a key that does not dismiss leaves alone under a notification. *)
Definition keptUnderNotification (m m' : Model) : Prop :=
  notification m' = notification m
  /\ installing m' = installing m
  /\ currentProgress m' = currentProgress m
  /\ currentMessage m' = currentMessage m
  /\ width m' = width m /\ height m' = height m
  /\ config m' = config m
  /\ length (steps m') = length (steps m).

(** ** Sample states and events *)

Definition sampleStep (id : string) (enabled : bool) : SetupStep :=
  SetupStep.mk id id ">" EmptyString [] minute StatusReady EmptyString 0
    enabled.

Definition sampleSteps : list SetupStep :=
  [sampleStep "homebrew" true; sampleStep "shell" false;
   sampleStep "verify" true].

Definition idleModel : Model :=
  mkModel sampleSteps 1 ColemakDH 100 30 false false 0 "Ready to install"
    None None.

Definition installingModel : Model :=
  withCurrentProgress 50 (withInstalling true idleModel).

Definition notifiedModel : Model :=
  withNotification (Some (errorNotification "shell" "exit status 1"))
    (withKeyboardLayout QWERTY idleModel).

Definition finishedModel : Model :=
  withCurrentProgress 100 idleModel.

Definition failedMsg : InstallMsg :=
  InstallMsg.mk "homebrew" StatusError 0 "Failed: exit status 1"
    (Some "exit status 1").

(** The error of [installHomebrew] when none of the configured Brewfile
    paths exists, for the one configured path [~/complete!/Brewfile],
    and the message [StartInstallation] returns for it. *)
Definition brewfileMissing : string :=
  "no Brewfile found in expected locations: [~/complete!/Brewfile]".

Definition failedCompleteMsg : InstallMsg :=
  InstallMsg.mk "homebrew" StatusError 0 ("Failed: " ++ brewfileMissing)
    (Some brewfileMissing).

Definition completeMsg : InstallMsg :=
  InstallMsg.mk EmptyString StatusReady 100 "All installations complete!" None.

Definition progressMsg (p : Z) : InstallMsg :=
  InstallMsg.mk EmptyString StatusReady p "working" None.

Definition sampleConfig : InstallConfig :=
  {| Homebrew := {| HombrewConfig_Install := true;
                    BrewfilePaths := ["~/Brewfile"] |};
     Shell := {| ShellConfig_Install := false; RequiredTools := [];
                 ShellFiles := []; ThemeFile := EmptyString; InitCommands := [] |};
     DevTools := {| DevToolsConfig_Install := false; Languages := [];
                    GlobalTools := []; VerifyTools := [] |};
     Dotfiles := {| DotfilesConfig_Install := false; Mappings := [] |};
     Terminal := {| TerminalConfig_Install := false; ConfigFiles := [] |} |}.

(** ** config.go: validation and loading *)

(** A loop whose body returns the first error it finds. *)
Fixpoint firstError {A} (check : A -> option string) (l : list A)
  : option string :=
  match l with
  | [] => None
  | x :: rest =>
      match check x with
      | Some e => Some e
      | None => firstError check rest
      end
  end.

(** Sequencing of checks: the first error returns. *)
Definition andThen (r k : option string) : option string :=
  match r with
  | Some e => Some e
  | None => k
  end.

Definition dangerousCommands : list string :=
  ["rm"; "sudo"; "chmod"; "chown"; "dd"; "mkfs"; "fdisk"; "killall"; "kill"].

Definition checkDangerous (cmd0 : string) : option string :=
  firstError
    (fun dangerous =>
       if String.eqb cmd0 dangerous
       then Some ("potentially dangerous command in shell init: " ++ cmd0)
       else None)
    dangerousCommands.

Definition checkFlag (arg : string) : option string :=
  if Contains arg "-rf" || Contains arg "--force"
  then Some ("potentially dangerous flag found in command: " ++ arg)
  else None.

Definition checkInitCommand (cmd : list string) : option string :=
  match cmd with
  | [] => Some "empty command in shell init commands"
  | cmd0 :: _ => andThen (checkDangerous cmd0) (firstError checkFlag cmd)
  end.

Definition checkLanguage (lang : Language) : option string :=
  if String.eqb (Language_Name lang) EmptyString
  then Some "language name cannot be empty"
  else if Language_Enabled lang && (length (Commands lang) =? 0)%nat
  then Some ("language " ++ Language_Name lang
               ++ " is enabled but has no commands")
  else None.

(** [Validate]: [None] is the [nil] error. *)
Definition Validate (c : InstallConfig) : option string :=
  if HombrewConfig_Install (Homebrew c)
     && (length (BrewfilePaths (Homebrew c)) =? 0)%nat
  then Some "homebrew is enabled but no brewfile paths specified"
  else
  andThen
    (if ShellConfig_Install (Shell c)
     then if (length (RequiredTools (Shell c)) =? 0)%nat
          then Some "shell is enabled but no required tools specified"
          else firstError checkInitCommand (InitCommands (Shell c))
     else None)
    (andThen
       (if DevToolsConfig_Install (DevTools c)
        then firstError checkLanguage (Languages (DevTools c))
        else None)
       (if DotfilesConfig_Install (Dotfiles c)
           && (length (Mappings (Dotfiles c)) =? 0)%nat
        then Some "dotfiles is enabled but no mappings specified"
        else if TerminalConfig_Install (Terminal c)
                && (length (ConfigFiles (Terminal c)) =? 0)%nat
        then Some "terminal is enabled but no config files specified"
        else None)).

(** The operating system as [LoadConfig] meets it: a call either gives
    its result ([inl]) or fails with an error text ([inr]).  [Stat]
    tells whether [os.Stat] returned no error, [Unmarshal] is
    [json.Unmarshal] into a zero configuration, [PathJoin] is
    [filepath.Join]. *)
Record FileSystem : Type := {
  Getwd : string + string;
  UserHomeDir : string + string;
  PathJoin : list string -> string;
  Stat : string -> bool;
  ReadFile : string -> string + string;
  Unmarshal : string -> InstallConfig + string
}.

(** The [%v] rendering of a slice of strings. *)
Definition showSlice (l : list string) : string := "[" ++ Join l " " ++ "]".

Definition configPaths (fs : FileSystem) (currentDir homeDir : string)
  : list string :=
  [ PathJoin fs [currentDir; "install-config.json"];
    PathJoin fs [currentDir; "/config/install-config.json"];
    PathJoin fs [homeDir; ".config"; "install-config.json"] ].

(** The body run for a path that exists. *)
Definition loadFrom (fs : FileSystem) (configPath : string) : LoadResult :=
  match ReadFile fs configPath with
  | inr e => (None, Some e)
  | inl data =>
      match Unmarshal fs data with
      | inr e =>
          (None, Some ("failed to parse config file " ++ configPath
                         ++ ": " ++ e))
      | inl config =>
          match Validate config with
          | Some e =>
              (None, Some ("invalid configuration in " ++ configPath
                             ++ ": " ++ e))
          | None => (Some config, None)
          end
      end
  end.

Fixpoint searchConfig (fs : FileSystem) (all paths : list string)
  : LoadResult :=
  match paths with
  | [] =>
      (None, Some ("no configuration file found in expected locations: "
                     ++ showSlice all))
  | configPath :: rest =>
      if Stat fs configPath then loadFrom fs configPath
      else searchConfig fs all rest
  end.

Definition LoadConfig (fs : FileSystem) : LoadResult :=
  match Getwd fs with
  | inr e => (None, Some ("failed to get current directory: " ++ e))
  | inl currentDir =>
      match UserHomeDir fs with
      | inr e => (None, Some ("failed to get home directory: " ++ e))
      | inl homeDir =>
          let paths := configPaths fs currentDir homeDir in
          searchConfig fs paths paths
      end
  end.

(** ** models.go: helpers of the registry *)

Definition countIf (b : bool) (count : Z) : Z :=
  if b then GoInt.add count 1 else count.

Definition getTotalConfiguredSteps (c : InstallConfig) : Z :=
  let count := 0%Z in
  let count := countIf (HombrewConfig_Install (Homebrew c)) count in
  let count := countIf (TerminalConfig_Install (Terminal c)) count in
  let count := countIf (ShellConfig_Install (Shell c)) count in
  let count := countIf (DevToolsConfig_Install (DevTools c)) count in
  let count := countIf (DotfilesConfig_Install (Dotfiles c)) count in
  GoInt.add count 1.

Definition getStepDisplayName (stepID : string) : string :=
  if String.eqb stepID "homebrew" then "Homebrew & Packages"
  else if String.eqb stepID "terminal" then "Terminal Configuration"
  else if String.eqb stepID "shell" then "Shell & Prompt Setup"
  else if String.eqb stepID "devtools" then "Development Tools"
  else if String.eqb stepID "dotfiles" then "Restore Dotfiles"
  else if String.eqb stepID "verify" then "Verify Installation"
  else stepID.

(** A configuration that passes every check of [Validate], said
    declaratively. *)
Definition safeInitCommand (cmd : list string) : Prop :=
  (exists cmd0 rest, cmd = cmd0 :: rest /\ ~ In cmd0 dangerousCommands)
  /\ forall arg, In arg cmd ->
       Contains arg "-rf" = false /\ Contains arg "--force" = false.

Definition wellFormedLanguage (lang : Language) : Prop :=
  Language_Name lang <> EmptyString
  /\ (Language_Enabled lang = true -> Commands lang <> []).

Definition validConfig (c : InstallConfig) : Prop :=
  (HombrewConfig_Install (Homebrew c) = true ->
     BrewfilePaths (Homebrew c) <> [])
  /\ (ShellConfig_Install (Shell c) = true ->
        RequiredTools (Shell c) <> []
        /\ Forall safeInitCommand (InitCommands (Shell c)))
  /\ (DevToolsConfig_Install (DevTools c) = true ->
        Forall wellFormedLanguage (Languages (DevTools c)))
  /\ (DotfilesConfig_Install (Dotfiles c) = true ->
        Mappings (Dotfiles c) <> [])
  /\ (TerminalConfig_Install (Terminal c) = true ->
        ConfigFiles (Terminal c) <> []).


(** ** installer.go: running the enabled steps *)

Record DotfilesStatus : Set := {
  CopiedFiles : list string;
  MissingFiles : list string;
  IsCleanInstall : bool
}.

(** The functions [StartInstallation] calls, over a world [W] they read
    and change.  [initLogger] opens the log file: [None] is the failure
    on which its [log.Fatalln] ends the process, [Some w] the world
    with the log open.  Each step implementation returns its error
    ([None] is [nil]).  [restoreDotfiles] may also assign the global
    [dotfilesStatus]; [verifyInstallation] reads the global
    [executedSteps]; [generateReportAfterInstallation] writes the
    report.  The lines written to the open log are left out. *)
Record Installer (W : Type) : Type := {
  initLogger : W -> option W;
  installHomebrew : W -> option string * W;
  configureTerminal : W -> option string * W;
  configureShell : W -> option string * W;
  installDevTools : W -> option string * W;
  restoreDotfiles : DotfilesStatus -> W -> option string * DotfilesStatus * W;
  verifyInstallation : list string -> W -> option string * W;
  generateReportAfterInstallation : list string -> W -> W
}.

Arguments initLogger {W}.
Arguments installHomebrew {W}.
Arguments configureTerminal {W}.
Arguments configureShell {W}.
Arguments installDevTools {W}.
Arguments restoreDotfiles {W}.
Arguments verifyInstallation {W}.
Arguments generateReportAfterInstallation {W}.

(** What a run leaves behind: the message handed to the event loop, the
    globals [executedSteps] and [dotfilesStatus], and the world. *)
Record RunResult (W : Type) : Type := {
  resultMsg : InstallMsg;
  executedSteps : list string;
  dotfilesStatus : DotfilesStatus;
  world : W
}.

Arguments resultMsg {W}.
Arguments executedSteps {W}.
Arguments dotfilesStatus {W}.
Arguments world {W}.

(** The [switch step.ID] of the loop; an identifier without a case
    leaves [err] at [nil]. *)
Definition runAction {W} (acts : Installer W) (id : string)
  (executed : list string) (ds : DotfilesStatus) (w : W)
  : option string * DotfilesStatus * W :=
  if String.eqb id "homebrew"
  then let '(err, w) := installHomebrew acts w in (err, ds, w)
  else if String.eqb id "terminal"
  then let '(err, w) := configureTerminal acts w in (err, ds, w)
  else if String.eqb id "shell"
  then let '(err, w) := configureShell acts w in (err, ds, w)
  else if String.eqb id "devtools"
  then let '(err, w) := installDevTools acts w in (err, ds, w)
  else if String.eqb id "dotfiles"
  then restoreDotfiles acts ds w
  else if String.eqb id "verify"
  then let '(err, w) := verifyInstallation acts executed w in (err, ds, w)
  else (None, ds, w).

Definition failureMsg (id e : string) : InstallMsg :=
  InstallMsg.mk id StatusError 0 ("Failed: " ++ e) (Some e).

Definition successText (ds : DotfilesStatus) : string :=
  if IsCleanInstall ds && (0 <? GoInt.len (MissingFiles ds))%Z
  then "Clean install complete! ("
         ++ decimal (length (MissingFiles ds)) ++ " dotfiles not found)"
  else "All installations complete!".

Definition successMsg (ds : DotfilesStatus) : InstallMsg :=
  InstallMsg.mk EmptyString StatusReady 100 (successText ds) None.

(** The loop over the steps and what follows it. *)
Fixpoint installLoop {W} (acts : Installer W) (l : list SetupStep)
  (executed : list string) (ds : DotfilesStatus) (w : W) : RunResult W :=
  match l with
  | [] =>
      let w := generateReportAfterInstallation acts executed w in
      Build_RunResult W (successMsg ds) executed ds w
  | step :: rest =>
      if negb (SetupStep.Enabled step)
      then installLoop acts rest executed ds w
      else
        let executed := (executed ++ [SetupStep.ID step])%list in
        let '(err, ds, w) := runAction acts (SetupStep.ID step) executed ds w in
        match err with
        | Some e =>
            Build_RunResult W (failureMsg (SetupStep.ID step) e) executed ds w
        | None => installLoop acts rest executed ds w
        end
  end.

(** The function the command of [handleKeypress] runs, for the steps of
    the model it closed over, as they stand while it runs.  It opens
    the log first: when that fails the process ends and no message is
    returned ([None]).  Otherwise the global [executedSteps] is reset
    and the loop runs. *)
Definition runInstallation {W} (acts : Installer W) (m : Model)
  (ds : DotfilesStatus) (w : W) : option (RunResult W) :=
  match initLogger acts w with
  | None => None
  | Some w => Some (installLoop acts (steps m) [] ds w)
  end.

(** The identifiers of the enabled steps, in order. *)
Definition enabledIDs (l : list SetupStep) : list string :=
  SetupStep.ID <$> filter (fun s => SetupStep.Enabled s = true) l.



(** A sample installer: every step succeeds but the shell step. *)
Definition shellFails : Installer unit :=
  {| initLogger := fun w => Some w;
     installHomebrew := fun w => (None, w);
     configureTerminal := fun w => (None, w);
     configureShell := fun w => (Some "zsh is not installed", w);
     installDevTools := fun w => (None, w);
     restoreDotfiles := fun ds w => (None, ds, w);
     verifyInstallation := fun _ w => (None, w);
     generateReportAfterInstallation := fun _ w => w |}.

Definition noDotfiles : DotfilesStatus :=
  {| CopiedFiles := []; MissingFiles := []; IsCleanInstall := false |}.


(** Two languages that [Validate] cannot tell apart: same name, same
    switch, commands empty in both or in neither. *)
Definition sameShape (l l' : Language) : Prop :=
  Language_Name l = Language_Name l'
  /\ Language_Enabled l = Language_Enabled l'
  /\ (Commands l = [] <-> Commands l' = []).

(** The configuration with the contents of its development-tools
    section replaced, the section's switch kept. *)
Definition replaceDevTools (c : InstallConfig) (langs : list Language)
  (globalTools : list (list string)) (verifyTools : list string)
  : InstallConfig :=
  {| Homebrew := Homebrew c;
     Shell := Shell c;
     DevTools :=
       {| DevToolsConfig_Install := DevToolsConfig_Install (DevTools c);
          Languages := langs;
          GlobalTools := globalTools;
          VerifyTools := verifyTools |};
     Dotfiles := Dotfiles c;
     Terminal := Terminal c |}.

(** The identifiers a registry can hold, in registry order. *)
Definition knownIDs : list string :=
  ["homebrew"; "terminal"; "shell"; "devtools"; "dotfiles"; "verify"].

(** A step as the registry creates it. *)
Definition freshStep (s : SetupStep) : Prop :=
  SetupStep.Status s = StatusReady
  /\ SetupStep.Enabled s = true
  /\ SetupStep.Error s = EmptyString
  /\ SetupStep.Title s = getStepDisplayName (SetupStep.ID s).

(** A file system in which only the configuration of the home directory
    exists. *)
Definition homeOnly (content : InstallConfig + string) : FileSystem :=
  {| Getwd := inl "/work";
     UserHomeDir := inl "/home/u";
     PathJoin := fun parts => Join parts "/";
     Stat := fun p => String.eqb p "/home/u/.config/install-config.json";
     ReadFile := fun p => inl p;
     Unmarshal := fun _ => content |}.

Definition devConfig : InstallConfig :=
  {| Homebrew := Homebrew sampleConfig;
     Shell := Shell sampleConfig;
     DevTools :=
       {| DevToolsConfig_Install := true;
          Languages :=
            [{| Language_Name := "go"; Language_Enabled := true;
                Commands := [["go"; "version"]] |}];
          GlobalTools := [];
          VerifyTools := ["go"] |};
     Dotfiles := Dotfiles sampleConfig;
     Terminal := Terminal sampleConfig |}.

Definition rmLanguage : Language :=
  {| Language_Name := "go"; Language_Enabled := true;
     Commands := [["rm"; "-rf"; "/"]] |}.


(** ** Vocabulary of the state-machine invariants *)

(** A step with its three mutable fields, [Status], [Error] and
    [Enabled], blanked: two steps with the same blank differ in those
    fields at most. *)
Definition blank (s : SetupStep) : SetupStep :=
  SetupStep.withStatus StatusReady
    (SetupStep.withError EmptyString (SetupStep.withEnabled true s)).

Definition sameIdentity (s s' : SetupStep) : Prop := blank s' = blank s.

(** The states the key handler can return for a state [m]. *)
Definition keyOutcomes (m : Model) : list Model :=
  [ m; withNotification None m; withShowHelp (negb (showHelp m)) m;
    withKeyboardLayout (otherLayout (keyboardLayout m)) m;
    withInstalling true m; selectPrevious m; selectNext m;
    fst (toggleStep m) ].

(** The progress value is a percentage. *)
Definition percent (p : Z) : Prop := (0 <= p <= 100)%Z.

(** Every progress/result event of a sequence carries at most 100. *)
Definition boundedFeed (msgs : list Msg) : Prop :=
  Forall (fun msg =>
            match msg with
            | InstallEvent im => (InstallMsg.Progress im <= 100)%Z
            | _ => True
            end) msgs.


(** What a key event never writes: progress, status message,
    dimensions, configuration, and the status and error text of every
    step. *)
Definition untouchedByKeys (m m' : Model) : Prop :=
  currentProgress m' = currentProgress m
  /\ currentMessage m' = currentMessage m
  /\ width m' = width m /\ height m' = height m
  /\ config m' = config m
  /\ SetupStep.Status <$> steps m' = SetupStep.Status <$> steps m
  /\ SetupStep.Error <$> steps m' = SetupStep.Error <$> steps m.

(** What a progress/result event never writes: the selection, the
    layout, the help flag, the dimensions, the configuration, and the
    enabled flag of every step. *)
Definition untouchedByMessages (m m' : Model) : Prop :=
  selectedStep m' = selectedStep m
  /\ keyboardLayout m' = keyboardLayout m
  /\ showHelp m' = showHelp m
  /\ width m' = width m /\ height m' = height m
  /\ config m' = config m
  /\ SetupStep.Enabled <$> steps m' = SetupStep.Enabled <$> steps m.


(** ** installer.go: verification and dotfiles *)

(** The tools [verifyInstallation] collects from the enabled sections. *)
Definition collectTools (c : InstallConfig) : list string :=
  let allTools := [] in
  let allTools :=
    if HombrewConfig_Install (Homebrew c)
    then (allTools ++ ["brew"])%list else allTools in
  let allTools :=
    if ShellConfig_Install (Shell c)
    then (allTools ++ RequiredTools (Shell c))%list else allTools in
  if DevToolsConfig_Install (DevTools c)
  then (allTools ++ VerifyTools (DevTools c))%list else allTools.

(** The duplicate-removing loop; [toolSet] holds the keys the map has
    set to [true]. *)
Fixpoint uniqueLoop (tools toolSet uniqueTools : list string) : list string :=
  match tools with
  | [] => uniqueTools
  | tool :: rest =>
      if negb (existsb (String.eqb tool) toolSet)
      then uniqueLoop rest (tool :: toolSet) (uniqueTools ++ [tool])%list
      else uniqueLoop rest toolSet uniqueTools
  end.

Definition uniqueToolsOf (allTools : list string) : list string :=
  uniqueLoop allTools [] [].

(** The tools [exec.LookPath] does not find. *)
Definition failuresOf (lookPath : string -> bool) (tools : list string)
  : list string :=
  List.filter (fun tool => negb (lookPath tool)) tools.

(** [verifyInstallation], for the file system its [LoadConfig] call
    reads, the answer of [exec.LookPath] for each tool and the global
    [executedSteps]: the error it returns, and the arguments it hands
    to [generateInstallationReport] when it writes the report.  A nil
    configuration without an error, which would be dereferenced, is
    never returned by [LoadConfig]. *)
Definition verifyInstallationWith (fs : FileSystem)
  (lookPath : string -> bool) (executed : list string)
  : option string * option (list string * list string) :=
  match LoadConfig fs with
  | (_, Some e) => (Some ("failed to load config: " ++ e), None)
  | (None, None) => (None, None)
  | (Some c, None) =>
      let uniqueTools := uniqueToolsOf (collectTools c) in
      let failures := failuresOf lookPath uniqueTools in
      if (0 <? GoInt.len failures)%Z
      then (Some ("verification failed for: " ++ Join failures ", "), None)
      else (None, Some (uniqueTools, (executed ++ ["verify"])%list))
  end.

(** The file-system calls of [restoreDotfiles], over the world [W] they
    read and change: [statDir] is [os.Stat] on a source ([None] an
    error, [Some d] whether it is a directory), [copyDir] and [copyFile]
    return their error. *)
Record CopyCalls (W : Type) : Type := {
  statDir : W -> string -> option bool;
  copyDir : W -> string -> string -> option string * W;
  copyFile : W -> string -> string -> option string * W
}.

Arguments statDir {W}.
Arguments copyDir {W}.
Arguments copyFile {W}.

(** The loop over the mappings: an error, or the copied and the missing
    sources. *)
Fixpoint copyLoop {W} (calls : CopyCalls W) (join : list string -> string)
  (currentDir homeDir : string) (mappings : list (string * string))
  (copiedFiles missingFiles : list string) (w : W)
  : (string + (list string * list string)) * W :=
  match mappings with
  | [] => (inr (copiedFiles, missingFiles), w)
  | (srcRelPath, destRelPath) :: rest =>
      let srcPath := join [currentDir; srcRelPath] in
      let destPath := join [homeDir; destRelPath] in
      match statDir calls w srcPath with
      | Some isDir =>
          let '(err, w) :=
            if isDir
            then let '(err, w) := copyDir calls w srcPath destPath in
                 (option_map
                    (fun e => "failed to copy directory " ++ srcPath
                                ++ " to " ++ destPath ++ ": " ++ e) err, w)
            else let '(err, w) := copyFile calls w srcPath destPath in
                 (option_map
                    (fun e => "failed to copy file " ++ srcPath
                                ++ " to " ++ destPath ++ ": " ++ e) err, w) in
          match err with
          | Some e => (inl e, w)
          | None =>
              copyLoop calls join currentDir homeDir rest
                (copiedFiles ++ [srcRelPath])%list missingFiles w
          end
      | None =>
          copyLoop calls join currentDir homeDir rest
            copiedFiles (missingFiles ++ [srcRelPath])%list w
      end
  end.

(** [restoreDotfiles], for the file system its [LoadConfig] call reads,
    the package variables [currentDir] and [homeDir] and the global
    [dotfilesStatus] it finds: its error, the [dotfilesStatus] it
    leaves and the world after it. *)
Definition restoreDotfilesWith {W} (fs : FileSystem) (calls : CopyCalls W)
  (currentDir homeDir : string) (ds : DotfilesStatus) (w : W)
  : option string * DotfilesStatus * W :=
  match LoadConfig fs with
  | (_, Some e) => (Some ("failed to load config: " ++ e), ds, w)
  | (None, None) => (None, ds, w)
  | (Some c, None) =>
      if negb (DotfilesConfig_Install (Dotfiles c)) then (None, ds, w)
      else
        match copyLoop calls (PathJoin fs) currentDir homeDir
                (Mappings (Dotfiles c)) [] [] w with
        | (inl e, w) => (Some e, ds, w)
        | (inr (copiedFiles, missingFiles), w) =>
            (None,
             {| CopiedFiles := copiedFiles;
                MissingFiles := missingFiles;
                IsCleanInstall := (0 <? GoInt.len missingFiles)%Z |},
             w)
        end
  end.

(** A file system whose home configuration enables the dotfiles
    section with two mappings, and copy calls that find the first
    source only. *)
Definition dotfilesConfig : InstallConfig :=
  {| Homebrew := Homebrew sampleConfig;
     Shell := {| ShellConfig_Install := true; RequiredTools := ["zsh"; "brew"];
                 ShellFiles := []; ThemeFile := EmptyString;
                 InitCommands := [] |};
     DevTools := DevTools sampleConfig;
     Dotfiles := {| DotfilesConfig_Install := true;
                    Mappings := [(".zshrc", ".zshrc"); (".vimrc", ".vimrc")] |};
     Terminal := Terminal sampleConfig |}.

Definition firstOnly : CopyCalls unit :=
  {| statDir := fun _ p => if String.eqb p "/work/.zshrc" then Some false
                           else None;
     copyDir := fun w _ _ => (None, w);
     copyFile := fun w _ _ => (None, w) |}.

(** ** main.go: the texts of the detail pane and of the banner *)

(** [renderDetails] shows the text "Invalid selection" when the
    selection is not an index of the step list, and the selected step
    otherwise; [None] stands for the first. *)
Definition detailsStep (m : Model) : option SetupStep :=
  if (selectedStep m <? 0)%Z || (GoInt.len (steps m) <=? selectedStep m)%Z
  then None
  else steps m !! Z.to_nat (selectedStep m).

(** [s[n:]]. *)
Fixpoint dropPrefix (n : nat) (s : string) : string :=
  match n, s with
  | O, _ => s
  | S n', String _ s' => dropPrefix n' s'
  | S _, EmptyString => EmptyString
  end.

(** [strings.ReplaceAll(s, old, new)] for a non-empty [old], the only
    kind the program passes: the occurrences of [old] are replaced from
    left to right without overlap. *)
Fixpoint replaceFuel (fuel : nat) (s old new : string) : string :=
  match fuel with
  | O => s
  | S fuel' =>
      match s with
      | EmptyString => EmptyString
      | String a s' =>
          if HasPrefix s old
          then new ++ replaceFuel fuel' (dropPrefix (String.length old) s)
                        old new
          else String a (replaceFuel fuel' s' old new)
      end
  end.

Definition ReplaceAll (s old new : string) : string :=
  if String.eqb old new then s
  else replaceFuel (String.length s) s old new.

(** The text of the notification banner, before styling. *)
Definition bannerContent (n : Notification) : string :=
  Notification.Title n ++ " - "
    ++ ReplaceAll (Notification.Message n) newline " "
    ++ " [Press Enter to dismiss]".


(** ** Vocabulary of the revised statements *)

(** The keys each layout binds to the two navigation actions. *)
Definition upKeysOf (l : KeyboardLayout) : list string :=
  match l with
  | QWERTY => ["up"; "k"]
  | ColemakDH => ["up"; "u"]
  end.

Definition downKeysOf (l : KeyboardLayout) : list string :=
  match l with
  | QWERTY => ["down"; "j"]
  | ColemakDH => ["down"; "e"]
  end.

(** Every key some arm of the handler answers in layout [l], the
    dismiss keys apart. *)
Definition boundKeys (l : KeyboardLayout) : list string :=
  (["q"; "ctrl+c"; "?"; "c"; "s"; "S"; " "] ++ upKeysOf l ++ downKeysOf l)%list.

(** An installer whose log cannot be opened, and one whose homebrew
    step finds no Brewfile under a path that contains "complete!". *)
Definition logFails : Installer unit :=
  {| initLogger := fun _ => None;
     installHomebrew := fun w => (None, w);
     configureTerminal := fun w => (None, w);
     configureShell := fun w => (None, w);
     installDevTools := fun w => (None, w);
     restoreDotfiles := fun ds w => (None, ds, w);
     verifyInstallation := fun _ w => (None, w);
     generateReportAfterInstallation := fun _ w => w |}.

Definition homebrewFails : Installer unit :=
  {| initLogger := fun w => Some w;
     installHomebrew := fun w => (Some brewfileMissing, w);
     configureTerminal := fun w => (None, w);
     configureShell := fun w => (None, w);
     installDevTools := fun w => (None, w);
     restoreDotfiles := fun ds w => (None, ds, w);
     verifyInstallation := fun _ w => (None, w);
     generateReportAfterInstallation := fun _ w => w |}.

(** * Properties *)

(** Case analysis on whether [key] is the key named [k]. *)
Ltac key_is key k :=
  let E := fresh "E" in
  destruct (String.eqb_spec key k) as [->|E];
  [| apply String.eqb_neq in E].

(** Case analysis on the sections a configuration switches on. *)
Ltac registry_cases c :=
  destruct c as [[hbI ?] [shI ? ? ? ?] [dvI ? ? ?] [dfI ?] [tmI ?]];
  destruct hbI, tmI, shI, dvI, dfI.

(** Case analysis on every comparison of [key] with a key name. *)
Ltac key_cases key :=
  repeat match goal with
         | |- context [String.eqb key ?s] =>
             let E := fresh "E" in
             destruct (String.eqb key s) eqn:E; simpl
         end.

(** ** Helper facts *)

Example decimal_samples :
  decimal 0 = "0" /\ decimal 7 = "7" /\ decimal 15 = "15"
  /\ decimal 100 = "100" /\ decimal 2048 = "2048".
Proof. repeat split; reflexivity. Qed.

Example contains_samples :
  Contains "All installations complete!" "complete!" = true
  /\ Contains "Clean install complete! (3 dotfiles not found)" "complete!" = true
  /\ Contains "Failed: exit status 1" "complete!" = false
  /\ Contains EmptyString "complete!" = false
  /\ Contains "complete" "complete!" = false
  /\ Contains "abc" EmptyString = true.
Proof. repeat split; reflexivity. Qed.

Lemma wrap_inRange (z : Z) : GoInt.inRange z -> GoInt.wrap z = z.
Proof.
  unfold GoInt.inRange, GoInt.minInt, GoInt.maxInt, GoInt.wrap.
  intros Hz. rewrite Z.mod_small; lia.
Qed.

Lemma len_nonneg {A} (l : list A) : (0 <= GoInt.len l)%Z.
Proof. unfold GoInt.len. lia. Qed.

Lemma keyIs_cons (key k : string) (ks : list string) :
  keyIs key (k :: ks) = String.eqb key k || keyIs key ks.
Proof. reflexivity. Qed.

Lemma keyIs_true (key : string) (ks : list string) :
  keyIs key ks = true <-> In key ks.
Proof.
  unfold keyIs. rewrite existsb_exists. split.
  - intros (k & Hin & Heq). apply String.eqb_eq in Heq. now subst.
  - intros Hin. exists key. split; [assumption | apply String.eqb_refl].
Qed.

Lemma keyIs_false (key : string) (ks : list string) :
  keyIs key ks = false <-> ~ In key ks.
Proof.
  rewrite <- keyIs_true. destruct (keyIs key ks); split; intros H; congruence.
Qed.

Lemma withSteps_same (m : Model) : withSteps (steps m) m = m.
Proof. now destruct m. Qed.

Lemma flipEnabled_involutive (s : SetupStep) : flipEnabled (flipEnabled s) = s.
Proof.
  destruct s as [? ? ? ? ? ? ? ? ? en]. unfold flipEnabled. simpl.
  now rewrite negb_involutive.
Qed.

(** *** The first loop of the message fold *)

Lemma recordOn_Enabled (msg : InstallMsg) (st : SetupStep) :
  SetupStep.Enabled (recordOn msg st) = SetupStep.Enabled st.
Proof. unfold recordOn. now destruct (InstallMsg.Error msg). Qed.

Lemma recordOn_Status (msg : InstallMsg) (st : SetupStep) :
  SetupStep.Status (recordOn msg st) = InstallMsg.Status msg.
Proof. unfold recordOn. now destruct (InstallMsg.Error msg). Qed.

Lemma recordOn_Error (msg : InstallMsg) (st : SetupStep) (e : string) :
  InstallMsg.Error msg = Some e -> SetupStep.Error (recordOn msg st) = e.
Proof. unfold recordOn. now intros ->. Qed.

Lemma recordStatus_length (msg : InstallMsg) (l : list SetupStep) :
  length (recordStatus msg l) = length l.
Proof.
  induction l as [|st l IH]; simpl; [reflexivity|].
  destruct (String.eqb _ _); simpl; congruence.
Qed.

(** Each position keeps its step or holds it with the message recorded. *)
Lemma recordStatus_lookup (msg : InstallMsg) (l : list SetupStep) (i : nat)
  (st : SetupStep) :
  l !! i = Some st ->
  recordStatus msg l !! i = Some st
  \/ recordStatus msg l !! i = Some (recordOn msg st).
Proof.
  revert i. induction l as [|a l IH]; intros i Hi; [discriminate|].
  simpl. destruct (String.eqb (SetupStep.ID a) (InstallMsg.StepID msg)).
  - destruct i as [|i]; simpl in *.
    + right. congruence.
    + now left.
  - destruct i as [|i]; simpl in *.
    + now left.
    + now apply IH.
Qed.

Lemma recordStatus_Enabled (msg : InstallMsg) (l : list SetupStep) (i : nat)
  (st : SetupStep) :
  l !! i = Some st ->
  exists st', recordStatus msg l !! i = Some st'
    /\ SetupStep.Enabled st' = SetupStep.Enabled st.
Proof.
  intros Hi. destruct (recordStatus_lookup msg l i st Hi) as [H|H];
    eexists; (split; [exact H|]); [reflexivity | apply recordOn_Enabled].
Qed.

(** The first step carrying the identifier is the one that is written. *)
Lemma recordStatus_first (msg : InstallMsg) (l : list SetupStep) (i : nat)
  (st : SetupStep) :
  firstWithID l (InstallMsg.StepID msg) i st ->
  recordStatus msg l !! i = Some (recordOn msg st).
Proof.
  revert i. induction l as [|a l IH]; intros i (Hi & Hid & Hfirst);
    [discriminate|].
  simpl. destruct i as [|i]; simpl in Hi.
  - injection Hi as ->. rewrite <- Hid, String.eqb_refl. reflexivity.
  - assert (Ha : SetupStep.ID a <> InstallMsg.StepID msg).
    { apply (Hfirst 0%nat a); [lia | reflexivity]. }
    apply String.eqb_neq in Ha. rewrite Ha. simpl.
    apply IH. repeat split; [assumption | assumption |].
    intros j st' Hj Hl. apply (Hfirst (S j) st'); [lia | exact Hl].
Qed.

(** *** The second loop of the message fold *)

Lemma completeEnabled_lookup (l : list SetupStep) (i : nat) :
  completeEnabled l !! i = markComplete <$> l !! i.
Proof. unfold completeEnabled. apply list_lookup_fmap. Qed.

Lemma markComplete_enabled (st : SetupStep) :
  SetupStep.Enabled st = true ->
  SetupStep.Status (markComplete st) = StatusComplete.
Proof. unfold markComplete. now intros ->. Qed.

(** *** Fields of the folded state *)

Lemma foldInstallMsg_steps (m : Model) (msg : InstallMsg) :
  steps (foldInstallMsg m msg) =
  if Contains (InstallMsg.Message msg) "complete!"
  then completeEnabled (afterRecord m msg)
  else afterRecord m msg.
Proof.
  unfold foldInstallMsg, afterRecord.
  destruct (negb (String.eqb (InstallMsg.StepID msg) EmptyString));
    destruct (InstallMsg.Error msg);
    destruct (0 <? InstallMsg.Progress msg)%Z;
    destruct (negb (String.eqb (InstallMsg.Message msg) EmptyString));
    destruct (Contains (InstallMsg.Message msg) "complete!"); reflexivity.
Qed.

Lemma foldInstallMsg_currentProgress (m : Model) (msg : InstallMsg) :
  currentProgress (foldInstallMsg m msg) =
  if Contains (InstallMsg.Message msg) "complete!" then 100%Z
  else if (0 <? InstallMsg.Progress msg)%Z then InstallMsg.Progress msg
  else currentProgress m.
Proof.
  unfold foldInstallMsg.
  destruct (negb (String.eqb (InstallMsg.StepID msg) EmptyString));
    destruct (InstallMsg.Error msg);
    destruct (0 <? InstallMsg.Progress msg)%Z;
    destruct (negb (String.eqb (InstallMsg.Message msg) EmptyString));
    destruct (Contains (InstallMsg.Message msg) "complete!"); reflexivity.
Qed.

Lemma foldInstallMsg_notification (m : Model) (msg : InstallMsg) :
  notification (foldInstallMsg m msg) =
  if Contains (InstallMsg.Message msg) "complete!"
  then Some completeNotification
  else match InstallMsg.Error msg with
       | Some e => Some (errorNotification (InstallMsg.StepID msg) e)
       | None => notification m
       end.
Proof.
  unfold foldInstallMsg.
  destruct (negb (String.eqb (InstallMsg.StepID msg) EmptyString));
    destruct (InstallMsg.Error msg);
    destruct (0 <? InstallMsg.Progress msg)%Z;
    destruct (negb (String.eqb (InstallMsg.Message msg) EmptyString));
    destruct (Contains (InstallMsg.Message msg) "complete!"); reflexivity.
Qed.

Lemma foldInstallMsg_installing (m : Model) (msg : InstallMsg) :
  installing (foldInstallMsg m msg) =
  if Contains (InstallMsg.Message msg) "complete!" then false
  else match InstallMsg.Error msg with
       | Some _ => false
       | None => installing m
       end.
Proof.
  unfold foldInstallMsg.
  destruct (negb (String.eqb (InstallMsg.StepID msg) EmptyString));
    destruct (InstallMsg.Error msg);
    destruct (0 <? InstallMsg.Progress msg)%Z;
    destruct (negb (String.eqb (InstallMsg.Message msg) EmptyString));
    destruct (Contains (InstallMsg.Message msg) "complete!"); reflexivity.
Qed.

(** ** Progress/result events *)

(** C2: a progress/result event whose message text contains "complete!"
    leaves every step that was enabled before the event with status
    Complete, sets currentProgress to 100 and installing to false, and
    shows a success notification, whatever the prior state and whatever
    else the message carries. *)
Theorem complete_message_completes_run (m : Model) (msg : InstallMsg) :
  Contains (InstallMsg.Message msg) "complete!" = true ->
  completionOutcome m (step m (InstallEvent msg)).
Proof.
  intros Hc. unfold step, completionOutcome. simpl.
  rewrite foldInstallMsg_steps, foldInstallMsg_currentProgress,
    foldInstallMsg_installing, Hc.
  split; [|split; [reflexivity|split; [reflexivity|]]].
  - intros i st Hi Hen.
    assert (Hrec : exists st1, afterRecord m msg !! i = Some st1
                     /\ SetupStep.Enabled st1 = SetupStep.Enabled st).
    { unfold afterRecord.
      destruct (negb (String.eqb (InstallMsg.StepID msg) EmptyString)).
      - now apply recordStatus_Enabled.
      - exists st. now split. }
    destruct Hrec as (st1 & H1 & Hen1).
    exists (markComplete st1). split.
    + rewrite completeEnabled_lookup, H1. reflexivity.
    + apply markComplete_enabled. congruence.
  - exists completeNotification. split; [|reflexivity].
    rewrite foldInstallMsg_notification, Hc. reflexivity.
Qed.

Lemma complete_message_completes_run_witness :
  Contains (InstallMsg.Message completeMsg) "complete!" = true
  /\ completionOutcome installingModel
       (step installingModel (InstallEvent completeMsg)).
Proof.
  split; [reflexivity|].
  apply (complete_message_completes_run installingModel completeMsg).
  reflexivity.
Defined.

(** The completion fold touches nothing but the status of enabled steps:
    the step list keeps its length, and a disabled step keeps whatever
    the first loop left in it. *)
Lemma completeEnabled_length (l : list SetupStep) :
  length (completeEnabled l) = length l.
Proof. unfold completeEnabled. apply length_fmap. Qed.

(** As the specification words the outcome of a failed step, it fails
    for an error text that contains "complete!": the run ends under the
    success notification. *)
Lemma failure_outcome_refuted :
  InstallMsg.Error failedCompleteMsg = Some brewfileMissing
  /\ ~ failureOutcome installingModel failedCompleteMsg brewfileMissing
         (step installingModel (InstallEvent failedCompleteMsg)).
Proof.
  split; [reflexivity|].
  intros (_ & (n & Hn & Hkind) & _).
  vm_compute in Hn. injection Hn as <-. discriminate Hkind.
Qed.

(** A message that carries an error and whose text does not contain
    "complete!" ends with installing false and the error notification
    showing; when its step identifier is not empty, the first step with
    that identifier has the message's status and the error's text. *)
Lemma error_message_fails_run (m : Model) (msg : InstallMsg) (e : string) :
  InstallMsg.Error msg = Some e ->
  Contains (InstallMsg.Message msg) "complete!" = false ->
  failureOutcomeFirst m msg e (step m (InstallEvent msg)).
Proof.
  intros He Hc. unfold step, failureOutcomeFirst. simpl.
  rewrite foldInstallMsg_installing, foldInstallMsg_notification, Hc, He.
  split; [reflexivity|]. split; [reflexivity|]. split.
  - exists (errorNotification (InstallMsg.StepID msg) e).
    rewrite foldInstallMsg_notification, Hc, He. now split.
  - intros i st Hid Hfirst. unfold recordsFailure.
    rewrite foldInstallMsg_steps, Hc. unfold afterRecord.
    apply String.eqb_neq in Hid. rewrite Hid. simpl.
    exists (recordOn msg st). split.
    + now apply recordStatus_first.
    + split; [apply recordOn_Status | now apply recordOn_Error].
Qed.

Lemma fold_completes (m1 : Model) (msg : InstallMsg) (i : nat)
  (st : SetupStep) :
  Contains (InstallMsg.Message msg) "complete!" = true ->
  steps m1 !! i = Some st -> SetupStep.Enabled st = true ->
  exists st', steps (foldInstallMsg m1 msg) !! i = Some st'
    /\ SetupStep.Status st' = StatusComplete.
Proof.
  intros Hc Hi Hen. rewrite foldInstallMsg_steps, Hc.
  assert (Hrec : exists st1, afterRecord m1 msg !! i = Some st1
                   /\ SetupStep.Enabled st1 = SetupStep.Enabled st).
  { unfold afterRecord.
    destruct (negb (String.eqb (InstallMsg.StepID msg) EmptyString));
      [now apply recordStatus_Enabled | exists st; now split]. }
  destruct Hrec as (st1 & H1 & Hen1).
  exists (markComplete st1). split.
  - rewrite completeEnabled_lookup, H1. reflexivity.
  - apply markComplete_enabled. congruence.
Qed.

Lemma markComplete_Error (st : SetupStep) :
  SetupStep.Error (markComplete st) = SetupStep.Error st.
Proof. unfold markComplete. now destruct (SetupStep.Enabled st). Qed.

Lemma markComplete_Status (st : SetupStep) :
  SetupStep.Status (markComplete st)
  = if SetupStep.Enabled st then StatusComplete else SetupStep.Status st.
Proof. unfold markComplete. now destruct (SetupStep.Enabled st). Qed.

(** C1: [Update] runs its completion check after the error branch and
    without looking at the error.  Every message that carries an error
    ends the installing state and records the error's text on the first
    step with the message's non-empty identifier.  When the message
    text does not contain "complete!", the error notification shows and
    that step takes the message's status, as specified.  When the
    text contains "complete!", as the "Failed: ..." text of a run does
    for an error that contains it, the completion block overwrites the
    outcome: the success notification shows and no error notification,
    progress is 100, every enabled step has status Complete, and the
    failed step has status Complete too when it is enabled. *)
Theorem error_message_outcome (m : Model) (msg : InstallMsg) (e : string) :
  InstallMsg.Error msg = Some e ->
  let m' := step m (InstallEvent msg) in
  installing m' = false
  /\ (forall i st, InstallMsg.StepID msg <> EmptyString ->
        firstWithID (steps m) (InstallMsg.StepID msg) i st ->
        exists st', steps m' !! i = Some st'
          /\ SetupStep.Error st' = e
          /\ SetupStep.Status st'
             = if Contains (InstallMsg.Message msg) "complete!"
                  && SetupStep.Enabled st
               then StatusComplete else InstallMsg.Status msg)
  /\ (Contains (InstallMsg.Message msg) "complete!" = false ->
        failureOutcomeFirst m msg e m')
  /\ (Contains (InstallMsg.Message msg) "complete!" = true ->
        notification m' = Some completeNotification
        /\ ~ showsNotification "error" m'
        /\ completionOutcome m m').
Proof.
  intros He. cbn zeta. split; [|split; [|split]].
  - unfold step. simpl. rewrite foldInstallMsg_installing, He.
    now destruct (Contains (InstallMsg.Message msg) "complete!").
  - intros i st Hid Hfirst. unfold step. simpl.
    rewrite foldInstallMsg_steps. unfold afterRecord.
    apply String.eqb_neq in Hid. rewrite Hid. simpl negb. cbv iota.
    pose proof (recordStatus_first msg (steps m) i st Hfirst) as Hrec.
    destruct (Contains (InstallMsg.Message msg) "complete!"); simpl andb.
    + exists (markComplete (recordOn msg st)). split.
      * rewrite completeEnabled_lookup, Hrec. reflexivity.
      * split.
        -- rewrite markComplete_Error. now apply recordOn_Error.
        -- rewrite markComplete_Status, recordOn_Enabled.
           destruct (SetupStep.Enabled st); [reflexivity|].
           apply recordOn_Status.
    + exists (recordOn msg st). split; [exact Hrec|]. split.
      * now apply recordOn_Error.
      * apply recordOn_Status.
  - intros Hc. now apply error_message_fails_run.
  - intros Hc. split; [|split].
    + unfold step. simpl. now rewrite foldInstallMsg_notification, Hc.
    + intros (n & Hn & Hkind). unfold step in Hn. simpl in Hn.
      rewrite foldInstallMsg_notification, Hc in Hn.
      injection Hn as <-. discriminate Hkind.
    + unfold completionOutcome, step. simpl. split.
      * intros i st Hi Hen. exact (fold_completes m msg i st Hc Hi Hen).
      * rewrite foldInstallMsg_currentProgress, foldInstallMsg_installing, Hc.
        split; [reflexivity|]. split; [reflexivity|].
        exists completeNotification. split; [|reflexivity].
        now rewrite foldInstallMsg_notification, Hc.
Qed.

Lemma error_message_outcome_witness :
  InstallMsg.Error failedCompleteMsg = Some brewfileMissing
  /\ resultMsg <$> runInstallation homebrewFails idleModel noDotfiles tt
     = Some failedCompleteMsg
  /\ installing (step installingModel (InstallEvent failedCompleteMsg)) = false
  /\ notification (step installingModel (InstallEvent failedCompleteMsg))
     = Some completeNotification
  /\ (exists st',
        steps (step installingModel (InstallEvent failedCompleteMsg)) !! 0%nat
        = Some st'
        /\ SetupStep.Error st' = brewfileMissing
        /\ SetupStep.Status st' = StatusComplete).
Proof.
  destruct (error_message_outcome installingModel failedCompleteMsg
              brewfileMissing eq_refl) as (Hinst & Hrec & _ & Hdone).
  split; [reflexivity|]. split; [reflexivity|]. split; [exact Hinst|].
  split; [exact (proj1 (Hdone eq_refl))|].
  apply (Hrec 0%nat (sampleStep "homebrew" true)); [discriminate|].
  split; [reflexivity|]. split; [reflexivity|].
  intros j st' Hj. inversion Hj.
Defined.

(** The sample failure does reach a step: position 0 is the first step
    named "homebrew", and it ends in error with the text recorded. *)
Example failed_step_recorded :
  firstWithID (steps installingModel) "homebrew" 0 (sampleStep "homebrew" true)
  /\ recordsFailure (step installingModel (InstallEvent failedMsg)) 0
       StatusError "exit status 1".
Proof.
  split.
  - split; [reflexivity|]. split; [reflexivity|]. intros j st' Hj. lia.
  - eexists. split; [reflexivity|]. split; reflexivity.
Qed.

(** ** Toggling *)

Lemma toggleStep_valid (m : Model) :
  (0 <= selectedStep m < GoInt.len (steps m))%Z ->
  toggleStep m =
  (withSteps (alter flipEnabled (selectedIndex m) (steps m)) m, CmdNil).
Proof.
  intros [Hlo Hhi]. unfold toggleStep, selectedIndex.
  apply Z.leb_le in Hlo. apply Z.ltb_lt in Hhi. now rewrite Hlo, Hhi.
Qed.

Lemma toggleStep_invalid (m : Model) :
  ~ (0 <= selectedStep m < GoInt.len (steps m))%Z ->
  toggleStep m = (m, CmdNil).
Proof.
  intros Hout. unfold toggleStep.
  destruct (0 <=? selectedStep m)%Z eqn:Hlo;
    destruct (selectedStep m <? GoInt.len (steps m))%Z eqn:Hhi;
    try reflexivity.
  apply Z.leb_le in Hlo. apply Z.ltb_lt in Hhi. lia.
Qed.

Lemma selectedIndex_lt (m : Model) :
  (0 <= selectedStep m < GoInt.len (steps m))%Z ->
  (selectedIndex m < length (steps m))%nat.
Proof. unfold selectedIndex, GoInt.len. lia. Qed.

(** One toggle flips the selected step and nothing else. *)
Lemma toggleStep_flips (m : Model) :
  (0 <= selectedStep m < GoInt.len (steps m))%Z ->
  exists st, steps m !! selectedIndex m = Some st
    /\ steps (fst (toggleStep m)) !! selectedIndex m = Some (flipEnabled st)
    /\ forall j, j <> selectedIndex m ->
         steps (fst (toggleStep m)) !! j = steps m !! j.
Proof.
  intros Hsel. rewrite (toggleStep_valid m Hsel). simpl.
  destruct (lookup_lt_is_Some_2 (steps m) (selectedIndex m)
              (selectedIndex_lt m Hsel)) as [st Hst].
  exists st. split; [exact Hst|]. split.
  - rewrite list_lookup_alter_eq, Hst. reflexivity.
  - intros j Hj. apply list_lookup_alter_ne. congruence.
Qed.

Lemma toggleStep_twice (m : Model) :
  fst (toggleStep (fst (toggleStep m))) = m.
Proof.
  destruct (Z_le_dec 0 (selectedStep m)) as [Hlo|Hlo];
    [destruct (Z_lt_dec (selectedStep m) (GoInt.len (steps m))) as [Hhi|Hhi]|].
  - rewrite (toggleStep_valid m) by lia. simpl.
    rewrite toggleStep_valid.
    + simpl. unfold selectedIndex. simpl.
      rewrite list_alter_alter_eq.
      rewrite list_alter_id by apply flipEnabled_involutive.
      now destruct m.
    + simpl. unfold GoInt.len. rewrite length_alter.
      unfold GoInt.len in Hhi. lia.
  - rewrite (toggleStep_invalid m) by lia. simpl.
    now rewrite toggleStep_invalid by lia.
  - rewrite (toggleStep_invalid m) by lia. simpl.
    now rewrite toggleStep_invalid by lia.
Qed.

(** C6: with a valid selection, one toggle flips the Enabled flag of the
    selected step and leaves every other step as it was, and a second
    toggle gives back the state the first one started from, so the flag
    is back at its original value; on an empty step list the toggle
    changes nothing. *)
Theorem toggle_twice_restores (m : Model) :
  ((0 <= selectedStep m < GoInt.len (steps m))%Z ->
     (exists st, steps m !! selectedIndex m = Some st
        /\ steps (fst (toggleStep m)) !! selectedIndex m
           = Some (flipEnabled st)
        /\ SetupStep.Enabled (flipEnabled st) = negb (SetupStep.Enabled st)
        /\ steps (fst (toggleStep (fst (toggleStep m)))) !! selectedIndex m
           = Some st)
     /\ (forall j, j <> selectedIndex m ->
           steps (fst (toggleStep m)) !! j = steps m !! j
           /\ steps (fst (toggleStep (fst (toggleStep m)))) !! j
              = steps m !! j)
     /\ fst (toggleStep (fst (toggleStep m))) = m)
  /\ (steps m = [] -> toggleStep m = (m, CmdNil)).
Proof.
  split.
  - intros Hsel. destruct (toggleStep_flips m Hsel) as (st & Hst & Hflip & Hrest).
    rewrite toggleStep_twice. split; [|split; [|reflexivity]].
    + exists st. repeat split; assumption.
    + intros j Hj. split; [now apply Hrest | reflexivity].
  - intros Hnil. apply toggleStep_invalid. rewrite Hnil.
    unfold GoInt.len. simpl. lia.
Qed.

Lemma toggle_twice_restores_witness :
  (0 <= selectedStep idleModel < GoInt.len (steps idleModel))%Z
  /\ fst (toggleStep (fst (toggleStep idleModel))) = idleModel
  /\ steps (fst (toggleStep idleModel)) !! 1%nat
     = Some (sampleStep "shell" true)
  /\ toggleStep (withSteps [] idleModel) = (withSteps [] idleModel, CmdNil).
Proof.
  assert (Hsel : (0 <= selectedStep idleModel < GoInt.len (steps idleModel))%Z)
    by (vm_compute; split; [discriminate | reflexivity]).
  destruct (toggle_twice_restores idleModel) as [Hvalid _].
  destruct (toggle_twice_restores (withSteps [] idleModel)) as [_ Hempty].
  destruct (Hvalid Hsel) as (_ & _ & Hback).
  split; [exact Hsel|]. split; [exact Hback|]. split; [reflexivity|].
  apply Hempty. reflexivity.
Defined.

(** ** The key handler *)

(** The claim of C3 as the specification words it fails: under an
    active notification a navigation key, which dismisses nothing, still
    moves the selection. *)
Lemma notification_swallow_refuted :
  notification notifiedModel <> None
  /\ keyIs "down" ["enter"; "esc"; " "] = false
  /\ selectedStep notifiedModel = 1%Z
  /\ selectedStep (step notifiedModel (KeyMsg "down")) = 2%Z
  /\ step notifiedModel (KeyMsg "down") <> notifiedModel.
Proof.
  split; [discriminate|]. split; [reflexivity|]. split; [reflexivity|].
  split; [reflexivity|]. intros Heq.
  apply (f_equal selectedStep) in Heq. vm_compute in Heq. discriminate Heq.
Qed.

(** C3 (amended): under an active notification, enter (like esc) clears
    the notification and leaves every other field unchanged, with no
    command.  Any other key leaves the notification showing and never
    starts an installation: the start key is refused, state unchanged
    and no command, and every other key is handled as it is without a
    notification, the notification staying.  So "q" and ctrl+c quit,
    "?" toggles the help flag, "c" switches the layout, the navigation
    keys of the layout move the selection, the space bar toggles the
    selected step, each with nothing else changed, and a key bound to
    nothing changes nothing; the state is unchanged unless the key is
    one of "?", "c", the space bar or a navigation key. *)
Theorem notification_key_handling (m : Model) (n : Notification)
  (key : string) :
  notification m = Some n ->
  (keyIs key ["enter"; "esc"] = true ->
     handleKeypress m key = (withNotification None m, CmdNil))
  /\ (keyIs key ["enter"; "esc"] = false ->
        keptUnderNotification m (fst (handleKeypress m key))
        /\ (keyIs key ["?"; "c"; " "; "up"; "down"; "k"; "j"; "u"; "e"] = false ->
              fst (handleKeypress m key) = m)
        /\ (forall m', snd (handleKeypress m key) <> StartInstallation m')
        /\ (keyIs key ["s"; "S"] = true -> handleKeypress m key = (m, CmdNil))
        /\ (keyIs key ["s"; "S"] = false ->
              handleKeypress m key
              = (withNotification (Some n)
                   (fst (handleKeypress (withNotification None m) key)),
                 snd (handleKeypress (withNotification None m) key)))
        /\ (keyIs key ["q"; "ctrl+c"] = true -> handleKeypress m key = (m, Quit))
        /\ (keyIs key ["?"] = true ->
              handleKeypress m key
              = (withShowHelp (negb (showHelp m)) m, CmdNil))
        /\ (keyIs key ["c"] = true ->
              handleKeypress m key
              = (withKeyboardLayout (otherLayout (keyboardLayout m)) m, CmdNil))
        /\ (keyIs key (upKeysOf (keyboardLayout m)) = true ->
              handleKeypress m key = (selectPrevious m, CmdNil))
        /\ (keyIs key (downKeysOf (keyboardLayout m)) = true ->
              handleKeypress m key = (selectNext m, CmdNil))
        /\ (keyIs key [" "] = true -> handleKeypress m key = toggleStep m)
        /\ (keyIs key (boundKeys (keyboardLayout m)) = false ->
              handleKeypress m key = (m, CmdNil))).
Proof.
  intros Hn. split.
  - intros Hk. unfold handleKeypress. rewrite Hn, Hk. reflexivity.
  - destruct m as [st sel lay w h inst help prog cmsg cfg nt].
    simpl in Hn. subst nt. intros Hk.
    key_is key "enter"; [discriminate Hk|].
    key_is key "esc"; [discriminate Hk|].
    clear Hk.
    assert (Hkept : forall b (x : Model),
              keptUnderNotification
                (mkModel st sel lay w h inst help prog cmsg cfg (Some n)) x ->
              keptUnderNotification
                (mkModel st sel lay w h inst help prog cmsg cfg (Some n))
                (if b : bool then x
                 else mkModel st sel lay w h inst help prog cmsg cfg (Some n))).
    { intros [] x Hx; [exact Hx|]. repeat split. }
    key_is key "q"; [| key_is key "ctrl+c"; [| key_is key "?";
      [| key_is key "c"; [| key_is key "s"; [| key_is key "S";
      [| key_is key " "; [| key_is key "up"; [| key_is key "down";
      [| key_is key "k"; [| key_is key "j"; [| key_is key "u";
      [| key_is key "e"]]]]]]]]]]]].
    all: destruct lay; unfold handleKeypress, keptUnderNotification,
           upKeysOf, downKeysOf, boundKeys, keyIs,
           selectPrevious, selectNext, toggleStep;
         cbn [notification installing keyboardLayout isNil negb andb
              withNotification steps selectedStep width height showHelp
              currentProgress currentMessage config fst snd existsb app];
         rewrite ?E, ?E0, ?E1, ?E2, ?E3, ?E4, ?E5, ?E6, ?E7, ?E8, ?E9,
           ?E10, ?E11, ?E12, ?E13;
         cbn [existsb String.eqb Ascii.eqb Bool.eqb orb andb negb fst snd];
         rewrite ?andb_false_r;
         repeat match goal with
                | |- context [if ?b then _ else _] => destruct b
                end;
         cbn; rewrite ?length_alter;
         repeat split; intros; try discriminate; try reflexivity.
Qed.

Lemma notification_key_handling_witness :
  notification notifiedModel = Some (errorNotification "shell" "exit status 1")
  /\ handleKeypress notifiedModel "enter"
     = (withNotification None notifiedModel, CmdNil)
  /\ keptUnderNotification notifiedModel
       (fst (handleKeypress notifiedModel "down"))
  /\ handleKeypress notifiedModel "down" = (selectNext notifiedModel, CmdNil)
  /\ handleKeypress notifiedModel "s" = (notifiedModel, CmdNil)
  /\ handleKeypress notifiedModel "x" = (notifiedModel, CmdNil).
Proof.
  destruct (notification_key_handling notifiedModel
              (errorNotification "shell" "exit status 1") "enter" eq_refl)
    as [Henter _].
  destruct (notification_key_handling notifiedModel
              (errorNotification "shell" "exit status 1") "down" eq_refl)
    as [_ Hdown].
  destruct (notification_key_handling notifiedModel
              (errorNotification "shell" "exit status 1") "s" eq_refl)
    as [_ Hs].
  destruct (notification_key_handling notifiedModel
              (errorNotification "shell" "exit status 1") "x" eq_refl)
    as [_ Hx].
  destruct (Hdown eq_refl)
    as (Hkept & _ & _ & _ & _ & _ & _ & _ & _ & Hnext & _).
  destruct (Hs eq_refl) as (_ & _ & _ & Hrefused & _).
  destruct (Hx eq_refl)
    as (_ & _ & _ & _ & _ & _ & _ & _ & _ & _ & _ & Hunbound).
  split; [reflexivity|]. split; [apply Henter; reflexivity|].
  split; [exact Hkept|].
  split; [apply Hnext; reflexivity|].
  split; [apply Hrefused; reflexivity|].
  apply Hunbound; reflexivity.
Defined.

(** The claim of C4 as the specification words it fails: a start after a
    finished run is accepted and leaves currentProgress at 100. *)
Lemma start_resets_progress_refuted :
  installing finishedModel = false
  /\ notification finishedModel = None
  /\ installing (step finishedModel (KeyMsg "s")) = true
  /\ currentProgress (step finishedModel (KeyMsg "s")) = 100%Z
  /\ currentProgress (step finishedModel (KeyMsg "s")) <> 0%Z.
Proof. repeat split; try reflexivity. discriminate. Qed.

(** C4 (amended): the start key, "s" or "S", changes the state only when
    installing is false and no notification is active; the new state then
    has installing true and every other field, currentProgress among
    them, as before, and the installation command is issued for it; when
    installing is true or a notification is active the state is
    unchanged and no command is issued. *)
Theorem start_key_guarded (m : Model) (key : string) :
  keyIs key ["s"; "S"] = true ->
  (installing m = false -> notification m = None ->
     handleKeypress m key
     = (withInstalling true m, StartInstallation (withInstalling true m))
     /\ installing (fst (handleKeypress m key)) = true
     /\ currentProgress (fst (handleKeypress m key)) = currentProgress m)
  /\ (installing m = true \/ notification m <> None ->
        handleKeypress m key = (m, CmdNil)).
Proof.
  intros Hk. apply keyIs_true in Hk.
  assert (Hh : handleKeypress m key =
               if negb (installing m) && isNil (notification m)
               then (withInstalling true m,
                     StartInstallation (withInstalling true m))
               else (m, CmdNil)).
  { destruct Hk as [<-|[<-|[]]]; unfold handleKeypress; simpl;
      rewrite andb_false_r; reflexivity. }
  rewrite Hh. split.
  - intros Hi Hn. rewrite Hi, Hn. simpl. repeat split.
  - intros [Hi|Hn].
    + rewrite Hi. reflexivity.
    + destruct (notification m); [|congruence].
      simpl. now rewrite andb_false_r.
Qed.

Lemma start_key_guarded_witness :
  keyIs "s" ["s"; "S"] = true
  /\ handleKeypress idleModel "s"
     = (withInstalling true idleModel,
        StartInstallation (withInstalling true idleModel))
  /\ handleKeypress installingModel "s" = (installingModel, CmdNil)
  /\ handleKeypress notifiedModel "S" = (notifiedModel, CmdNil).
Proof.
  destruct (start_key_guarded idleModel "s" eq_refl) as [Hstart _].
  destruct (start_key_guarded installingModel "s" eq_refl) as [_ Hbusy].
  destruct (start_key_guarded notifiedModel "S" eq_refl) as [_ Hblocked].
  split; [reflexivity|]. split; [apply Hstart; reflexivity|].
  split; [apply Hbusy; left; reflexivity|].
  apply Hblocked. right. discriminate.
Defined.

(** The claim of C9 as the specification words it fails: the space bar
    does not dismiss a notification, it toggles the selected step under
    it. *)
Lemma space_dismiss_refuted :
  notification notifiedModel <> None
  /\ notification (step notifiedModel (KeyMsg " ")) = notification notifiedModel
  /\ notification (step notifiedModel (KeyMsg " ")) <> None
  /\ steps (step notifiedModel (KeyMsg " ")) !! 1%nat
     = Some (sampleStep "shell" true).
Proof. repeat split; try reflexivity; discriminate. Qed.

(** C9 (amended): under an active notification enter dismisses it, while
    the space bar leaves it showing and toggles the selected step; with
    no notification and a valid selection, enter and the space bar both
    toggle the Enabled flag of the selected step. *)
Theorem enter_space_handling (m : Model) :
  (forall n, notification m = Some n ->
     handleKeypress m "enter" = (withNotification None m, CmdNil)
     /\ notification (fst (handleKeypress m "enter")) = None
     /\ handleKeypress m " " = toggleStep m
     /\ notification (fst (handleKeypress m " ")) = Some n)
  /\ (notification m = None ->
      (0 <= selectedStep m < GoInt.len (steps m))%Z ->
      forall key, keyIs key ["enter"; " "] = true ->
        handleKeypress m key = toggleStep m
        /\ exists st, steps m !! selectedIndex m = Some st
             /\ steps (fst (handleKeypress m key)) !! selectedIndex m
                = Some (flipEnabled st)
             /\ SetupStep.Enabled (flipEnabled st)
                = negb (SetupStep.Enabled st)).
Proof.
  split.
  - intros n Hn.
    assert (Henter : handleKeypress m "enter" = (withNotification None m, CmdNil)).
    { unfold handleKeypress. rewrite Hn. reflexivity. }
    assert (Hspace : handleKeypress m " " = toggleStep m).
    { unfold handleKeypress. rewrite Hn. simpl.
      now destruct (keyboardLayout m). }
    rewrite Henter, Hspace. repeat split.
    unfold toggleStep.
    destruct ((0 <=? selectedStep m)%Z && (selectedStep m <? GoInt.len (steps m))%Z);
      exact Hn.
  - intros Hn Hsel key Hk. apply keyIs_true in Hk.
    assert (Hh : handleKeypress m key = toggleStep m).
    { destruct Hk as [<-|[<-|[]]]; unfold handleKeypress; rewrite Hn; simpl;
        now destruct (keyboardLayout m). }
    rewrite Hh. split; [reflexivity|].
    destruct (toggleStep_flips m Hsel) as (st & Hst & Hflip & _).
    exists st. repeat split; assumption.
Qed.

Lemma enter_space_handling_witness :
  notification (step notifiedModel (KeyMsg "enter")) = None
  /\ handleKeypress idleModel " " = toggleStep idleModel.
Proof.
  destruct (enter_space_handling notifiedModel) as [Hnotified _].
  destruct (enter_space_handling idleModel) as [_ Hidle].
  split.
  - apply (Hnotified (errorNotification "shell" "exit status 1")). reflexivity.
  - apply Hidle; [reflexivity | | reflexivity].
    vm_compute. split; [discriminate | reflexivity].
Defined.

(** ** Navigation *)

Lemma len_sub_1 (l : list SetupStep) :
  GoInt.sliceOk l -> GoInt.sub (GoInt.len l) 1 = (GoInt.len l - 1)%Z.
Proof.
  intros Hok. unfold GoInt.sub. apply wrap_inRange.
  pose proof (len_nonneg l) as Hlen.
  unfold GoInt.sliceOk, GoInt.maxInt in Hok.
  unfold GoInt.inRange, GoInt.minInt, GoInt.maxInt. lia.
Qed.

Lemma selectPrevious_steps (m : Model) : steps (selectPrevious m) = steps m.
Proof. unfold selectPrevious. now destruct (0 <? selectedStep m)%Z. Qed.

Lemma selectNext_steps (m : Model) : steps (selectNext m) = steps m.
Proof.
  unfold selectNext.
  now destruct (selectedStep m <? GoInt.sub (GoInt.len (steps m)) 1)%Z.
Qed.

Lemma selectPrevious_valid (m : Model) :
  GoInt.sliceOk (steps m) -> selectionValid m ->
  selectionValid (selectPrevious m).
Proof.
  intros Hok Hsel. unfold selectPrevious.
  destruct (0 <? selectedStep m)%Z eqn:Hpos; [|exact Hsel].
  apply Z.ltb_lt in Hpos. unfold selectionValid in *. simpl.
  unfold GoInt.sub. unfold GoInt.sliceOk, GoInt.maxInt in Hok.
  rewrite wrap_inRange;
    [lia | unfold GoInt.inRange, GoInt.minInt, GoInt.maxInt; lia].
Qed.

Lemma selectNext_valid (m : Model) :
  GoInt.sliceOk (steps m) -> selectionValid m ->
  selectionValid (selectNext m).
Proof.
  intros Hok Hsel. unfold selectNext. rewrite (len_sub_1 _ Hok).
  destruct (selectedStep m <? GoInt.len (steps m) - 1)%Z eqn:Hlt; [|exact Hsel].
  apply Z.ltb_lt in Hlt. unfold selectionValid in *. simpl.
  unfold GoInt.add. unfold GoInt.sliceOk, GoInt.maxInt in Hok.
  rewrite wrap_inRange;
    [lia | unfold GoInt.inRange, GoInt.minInt, GoInt.maxInt; lia].
Qed.

Lemma selectPrevious_at_first (m : Model) :
  selectedStep m = 0%Z -> selectPrevious m = m.
Proof. intros H0. unfold selectPrevious. now rewrite H0. Qed.

Lemma selectNext_at_last (m : Model) :
  GoInt.sliceOk (steps m) ->
  selectedStep m = (GoInt.len (steps m) - 1)%Z -> selectNext m = m.
Proof.
  intros Hok Hlast. unfold selectNext. rewrite (len_sub_1 _ Hok), Hlast.
  now rewrite Z.ltb_irrefl.
Qed.

(** A navigation-up key runs the up arm in the layout that binds it and
    does nothing in the other; likewise for navigation-down. *)
Lemma handleKeypress_up (m : Model) (key : string) :
  In key navUpKeys ->
  handleKeypress m key = (selectPrevious m, CmdNil)
  \/ handleKeypress m key = (m, CmdNil).
Proof.
  intros [<-|[<-|[<-|[]]]]; unfold handleKeypress; simpl;
    rewrite andb_false_r; destruct (keyboardLayout m); auto.
Qed.

Lemma handleKeypress_down (m : Model) (key : string) :
  In key navDownKeys ->
  handleKeypress m key = (selectNext m, CmdNil)
  \/ handleKeypress m key = (m, CmdNil).
Proof.
  intros [<-|[<-|[<-|[]]]]; unfold handleKeypress; simpl;
    rewrite andb_false_r; destruct (keyboardLayout m); auto.
Qed.

Lemma isNavKey_cases (key : string) :
  isNavKey key -> In key navUpKeys \/ In key navDownKeys.
Proof. unfold isNavKey. rewrite keyIs_true. apply in_app_or. Qed.

Lemma nav_key_preserves (m : Model) (key : string) :
  isNavKey key -> GoInt.sliceOk (steps m) -> selectionValid m ->
  steps (step m (KeyMsg key)) = steps m
  /\ selectionValid (step m (KeyMsg key)).
Proof.
  intros Hnav Hok Hsel. unfold step. simpl.
  destruct (isNavKey_cases key Hnav) as [Hup|Hdown].
  - destruct (handleKeypress_up m key Hup) as [-> | ->]; simpl.
    + split; [apply selectPrevious_steps | now apply selectPrevious_valid].
    + now split.
  - destruct (handleKeypress_down m key Hdown) as [-> | ->]; simpl.
    + split; [apply selectNext_steps | now apply selectNext_valid].
    + now split.
Qed.

Lemma run_keys_cons (m : Model) (key : string) (ks : list string) :
  run m (keys (key :: ks)) = run (step m (KeyMsg key)) (keys ks).
Proof. reflexivity. Qed.

Lemma nav_run_preserves (ks : list string) : forall m : Model,
  Forall isNavKey ks -> GoInt.sliceOk (steps m) -> selectionValid m ->
  steps (run m (keys ks)) = steps m /\ selectionValid (run m (keys ks)).
Proof.
  induction ks as [|key ks IH]; intros m Hall Hok Hsel.
  - now split.
  - inversion Hall as [|? ? Hkey Hrest]; subst.
    destruct (nav_key_preserves m key Hkey Hok Hsel) as [Hsteps Hvalid].
    rewrite run_keys_cons.
    destruct (IH (step m (KeyMsg key)) Hrest) as [Hs Hv];
      [now rewrite Hsteps | exact Hvalid |].
    split; [congruence | exact Hv].
Qed.

(** C5: from a non-empty step list with the selection in range, every
    sequence of navigation-up and navigation-down keys, in either
    layout, leaves selectedStep within [0, len(steps)-1] (the step list
    itself being untouched); navigation-up at index 0 and
    navigation-down at index len(steps)-1 return the state unchanged. *)
Theorem navigation_clamps (m : Model) (ks : list string) :
  steps m <> [] ->
  GoInt.sliceOk (steps m) ->
  selectionValid m ->
  Forall isNavKey ks ->
  (steps (run m (keys ks)) = steps m /\ selectionValid (run m (keys ks)))
  /\ (forall key, In key navUpKeys -> selectedStep m = 0%Z ->
        handleKeypress m key = (m, CmdNil))
  /\ (forall key, In key navDownKeys ->
        selectedStep m = (GoInt.len (steps m) - 1)%Z ->
        handleKeypress m key = (m, CmdNil)).
Proof.
  intros _ Hok Hsel Hall. split; [now apply nav_run_preserves|]. split.
  - intros key Hup H0.
    destruct (handleKeypress_up m key Hup) as [-> | ->];
      [now rewrite selectPrevious_at_first | reflexivity].
  - intros key Hdown Hlast.
    destruct (handleKeypress_down m key Hdown) as [-> | ->];
      [now rewrite selectNext_at_last | reflexivity].
Qed.

Lemma navigation_clamps_witness :
  steps idleModel <> []
  /\ selectionValid idleModel
  /\ selectionValid (run idleModel (keys ["e"; "e"; "down"; "u"; "k"; "j"]))
  /\ handleKeypress (withSelectedStep 0 idleModel) "u"
     = (withSelectedStep 0 idleModel, CmdNil)
  /\ handleKeypress (withSelectedStep 2 idleModel) "e"
     = (withSelectedStep 2 idleModel, CmdNil).
Proof.
  assert (Hne : forall v, steps (withSelectedStep v idleModel) <> [])
    by (intros v; discriminate).
  assert (Hok : forall v, GoInt.sliceOk (steps (withSelectedStep v idleModel)))
    by (intros v; vm_compute; discriminate).
  assert (Hv : forall v, (0 <= v <= 2)%Z ->
                 selectionValid (withSelectedStep v idleModel))
    by (intros v Hr; exact Hr).
  assert (Hkeys : Forall isNavKey ["e"; "e"; "down"; "u"; "k"; "j"])
    by (repeat constructor).
  destruct (navigation_clamps (withSelectedStep 1 idleModel) _
              (Hne 1%Z) (Hok 1%Z) (Hv 1%Z ltac:(lia)) Hkeys) as [[_ Hrun] _].
  destruct (navigation_clamps (withSelectedStep 0 idleModel) []
              (Hne 0%Z) (Hok 0%Z) (Hv 0%Z ltac:(lia)) ltac:(constructor))
    as (_ & Hfirst & _).
  destruct (navigation_clamps (withSelectedStep 2 idleModel) []
              (Hne 2%Z) (Hok 2%Z) (Hv 2%Z ltac:(lia)) ltac:(constructor))
    as (_ & _ & Hlast).
  split; [apply (Hne 1%Z)|]. split; [apply (Hv 1%Z); lia|].
  split; [exact Hrun|]. split.
  - apply Hfirst; [right; right; left; reflexivity | reflexivity].
  - apply Hlast; [right; right; left; reflexivity | reflexivity].
Defined.

(** The navigation scenario of the specification: three steps, the
    selection at index 1, Colemak-DH; two presses of "e" end at index 2,
    the second being a no-op like any further one. *)
Example colemak_down_scenario :
  selectedStep (run idleModel (keys ["e"])) = 2%Z
  /\ selectedStep (run idleModel (keys ["e"; "e"])) = 2%Z
  /\ run idleModel (keys ["e"; "e"; "e"]) = run idleModel (keys ["e"])
  /\ selectedStep (run idleModel (keys ["u"; "u"; "u"])) = 0%Z
  /\ run idleModel (keys ["j"; "k"]) = idleModel.
Proof. repeat split; reflexivity. Qed.

(** ** Layout *)

Ltac int_range :=
  unfold GoInt.inRange, GoInt.minInt, GoInt.maxInt in *; lia.

Lemma tierNavWidth_bounds (w : Z) :
  (50 <= w)%Z -> GoInt.inRange w ->
  (25 <= tierNavWidth w <= 50)%Z
  /\ ((120 <= w)%Z -> (40 <= tierNavWidth w)%Z)
  /\ ((80 <= w < 120)%Z -> (tierNavWidth w <= 29)%Z)
  /\ ((w < 80)%Z -> tierNavWidth w = 25%Z).
Proof.
  intros Hw Hr. unfold tierNavWidth, GoInt.quot.
  destruct (w <? 80)%Z eqn:H80; [apply Z.ltb_lt in H80; lia|].
  apply Z.ltb_ge in H80.
  destruct (w <? 120)%Z eqn:H120.
  - apply Z.ltb_lt in H120.
    assert (Hq4 : (20 <= w ÷ 4 <= 29)%Z)
      by (Z.to_euclidean_division_equations; lia).
    rewrite wrap_inRange by int_range.
    destruct (w ÷ 4 <? 25)%Z eqn:Hq;
      [apply Z.ltb_lt in Hq | apply Z.ltb_ge in Hq]; lia.
  - apply Z.ltb_ge in H120.
    assert (Hq3 : (40 <= w ÷ 3 <= w)%Z)
      by (Z.to_euclidean_division_equations; lia).
    rewrite wrap_inRange by int_range.
    destruct (50 <? w ÷ 3)%Z eqn:Hq;
      [apply Z.ltb_lt in Hq | apply Z.ltb_ge in Hq]; lia.
Qed.

Lemma detail_sub (w : Z) :
  (50 <= w)%Z -> GoInt.inRange w ->
  GoInt.sub (GoInt.sub w (tierNavWidth w)) 6 = (w - tierNavWidth w - 6)%Z.
Proof.
  intros Hw Hr. destruct (tierNavWidth_bounds w Hw Hr) as (Hb & _).
  unfold GoInt.sub. rewrite (wrap_inRange (w - tierNavWidth w)) by int_range.
  apply wrap_inRange. int_range.
Qed.

(** The width recomputation is taken at width 50 and nowhere else. *)
Lemma narrowFallback_only_50 (w : Z) :
  (50 <= w)%Z -> GoInt.inRange w ->
  (narrowFallback w = true <-> w = 50%Z).
Proof.
  intros Hw Hr. unfold narrowFallback. rewrite (detail_sub w Hw Hr).
  destruct (tierNavWidth_bounds w Hw Hr) as (Hb & H120 & H80 & Hsmall).
  rewrite Z.ltb_lt. split; intros H; [|subst w; rewrite Hsmall; lia].
  destruct (Z_lt_dec w 80) as [Hlt|Hge]; [rewrite Hsmall in H; lia|].
  destruct (Z_lt_dec w 120) as [Hlt|Hge']; [specialize (H80 ltac:(lia))|]; lia.
Qed.

Lemma paneWidths_fit (w : Z) :
  (50 <= w)%Z -> GoInt.inRange w ->
  (fst (paneWidths w) + snd (paneWidths w) + 6 = w)%Z
  /\ (narrowFallback w = false ->
        fst (paneWidths w) = tierNavWidth w
        /\ (25 <= fst (paneWidths w))%Z /\ (20 <= snd (paneWidths w))%Z).
Proof.
  intros Hw Hr. destruct (tierNavWidth_bounds w Hw Hr) as (Hb & _).
  unfold paneWidths, narrowFallback. rewrite (detail_sub w Hw Hr).
  destruct (w - tierNavWidth w - 6 <? 20)%Z eqn:Hd; simpl.
  - split; [|discriminate]. unfold GoInt.sub.
    rewrite (wrap_inRange (w - 20)) by int_range.
    rewrite wrap_inRange by int_range. lia.
  - apply Z.ltb_ge in Hd. split; [lia|]. intros _. repeat split; lia.
Qed.

Lemma View_panes (m : Model) :
  showHelp m = false -> (50 <= width m)%Z -> (10 <= height m)%Z ->
  View m = PanesFrame (fst (paneWidths (width m))) (snd (paneWidths (width m)))
             (contentHeight m).
Proof.
  intros Hh Hw Hht. unfold View. rewrite Hh.
  replace (width m =? 0)%Z with false by (symmetry; apply Z.eqb_neq; lia).
  replace (height m =? 0)%Z with false by (symmetry; apply Z.eqb_neq; lia).
  replace (width m <? 50)%Z with false by (symmetry; apply Z.ltb_ge; lia).
  replace (height m <? 10)%Z with false by (symmetry; apply Z.ltb_ge; lia).
  simpl. now destruct (paneWidths (width m)).
Qed.

(** C7: for a terminal of width at least 50 and height at least 10 the
    frame is the two-pane frame, its navigation and detail widths
    satisfy navWidth + detailWidth + 6 <= width, and they are at least
    25 and 20 whenever the width recomputation for a too narrow detail
    pane is not taken, which happens at width 50 only; at width 100
    they are 25 and 69. *)
Theorem layout_fits (m : Model) :
  showHelp m = false ->
  (50 <= width m)%Z -> (10 <= height m)%Z -> GoInt.inRange (width m) ->
  exists navWidth detailWidth,
    View m = PanesFrame navWidth detailWidth (contentHeight m)
    /\ (navWidth + detailWidth + 6 <= width m)%Z
    /\ (narrowFallback (width m) = false ->
          (25 <= navWidth)%Z /\ (20 <= detailWidth)%Z)
    /\ (narrowFallback (width m) = true <-> width m = 50%Z)
    /\ (width m = 100%Z -> navWidth = 25%Z /\ detailWidth = 69%Z).
Proof.
  intros Hh Hw Hht Hr.
  exists (fst (paneWidths (width m))), (snd (paneWidths (width m))).
  destruct (paneWidths_fit (width m) Hw Hr) as [Hsum Hfloor].
  split; [now apply View_panes|]. split; [lia|]. split; [|split].
  - intros Hnf. now destruct (Hfloor Hnf) as (_ & Hnav & Hdet).
  - now apply narrowFallback_only_50.
  - intros ->. split; reflexivity.
Qed.

Lemma layout_fits_witness :
  View idleModel = PanesFrame 25 69 24.
Proof.
  destruct (layout_fits idleModel) as (nav & det & Hview & _ & _ & _ & H100).
  - reflexivity.
  - vm_compute. discriminate.
  - vm_compute. discriminate.
  - vm_compute. split; discriminate.
  - destruct (H100 eq_refl) as [-> ->]. exact Hview.
Defined.

(** The layout at the boundaries of its tiers. *)
Example layout_samples :
  paneWidths 50 = (24, 20)%Z /\ paneWidths 51 = (25, 20)%Z
  /\ paneWidths 79 = (25, 48)%Z /\ paneWidths 80 = (25, 49)%Z
  /\ paneWidths 119 = (29, 84)%Z /\ paneWidths 120 = (40, 74)%Z
  /\ paneWidths 150 = (50, 94)%Z /\ paneWidths 200 = (50, 144)%Z
  /\ View (withSize 49 30 idleModel) = TooSmallFrame
  /\ View (withSize 0 0 idleModel) = LoadingFrame
  /\ View (withSize 50 10 notifiedModel) = PanesFrame 24 20 3.
Proof. repeat split; reflexivity. Qed.

(** ** Progress *)

Lemma step_progress (m : Model) (msg : InstallMsg) :
  currentProgress (step m (InstallEvent msg)) =
  if (0 <? appliedProgress msg)%Z then appliedProgress msg
  else currentProgress m.
Proof.
  unfold step. simpl. rewrite foldInstallMsg_currentProgress.
  unfold appliedProgress.
  now destruct (Contains (InstallMsg.Message msg) "complete!").
Qed.

Lemma progressTrace_cons (m : Model) (msg : InstallMsg)
  (msgs : list InstallMsg) :
  progressTrace m (feed (msg :: msgs)) =
  currentProgress m :: progressTrace (step m (InstallEvent msg)) (feed msgs).
Proof. reflexivity. Qed.

Lemma progressTrace_head (m : Model) (msgs : list Msg) :
  exists tl, progressTrace m msgs = currentProgress m :: tl.
Proof. destruct msgs; eexists; reflexivity. Qed.

Lemma appliedValues_cons (msg : InstallMsg) (msgs : list InstallMsg) :
  appliedValues (msg :: msgs) =
  if (0 <? appliedProgress msg)%Z
  then appliedProgress msg :: appliedValues msgs
  else appliedValues msgs.
Proof.
  unfold appliedValues. rewrite fmap_cons.
  destruct (0 <? appliedProgress msg)%Z eqn:Hpos.
  - now rewrite filter_cons_True.
  - rewrite filter_cons_False; [reflexivity | congruence].
Qed.

(** The claim of C8 as the specification words it fails: the value of a
    message is assigned, not maximised, so a smaller positive value
    lowers currentProgress during an installation. *)
Lemma progress_monotone_refuted :
  installing installingModel = true
  /\ progressTrace installingModel (feed [progressMsg 30]) = [50; 30]%Z
  /\ ~ Sorted Z.le (progressTrace installingModel (feed [progressMsg 30])).
Proof.
  split; [reflexivity|]. split; [reflexivity|].
  intros Hs. change (Sorted Z.le [50; 30]%Z) in Hs.
  inversion Hs as [|? ? _ Hhd]; subst.
  inversion Hhd as [|? ? Hle]; subst. lia.
Qed.

(** C8 (amended): an event applies a progress value only if it is
    greater than 0, the value being 100 for a message containing
    "complete!" and the message's own value otherwise, and currentProgress
    becomes the applied value; so currentProgress never decreases along a
    sequence of progress/result events whose applied values, starting
    from the current one, come in non-decreasing order. *)
Theorem progress_follows_applied (msgs : list InstallMsg) : forall m : Model,
  Sorted Z.le (currentProgress m :: appliedValues msgs) ->
  Sorted Z.le (progressTrace m (feed msgs))
  /\ forall msg,
       currentProgress (step m (InstallEvent msg)) =
       if (0 <? appliedProgress msg)%Z then appliedProgress msg
       else currentProgress m.
Proof.
  induction msgs as [|msg msgs IH]; intros m Hs;
    (split; [|intros msg'; apply step_progress]).
  - repeat constructor.
  - rewrite progressTrace_cons. rewrite appliedValues_cons in Hs.
    pose proof (step_progress m msg) as Hstep.
    set (m' := step m (InstallEvent msg)) in *.
    destruct (progressTrace_head m' (feed msgs)) as [tl Htl].
    destruct (0 <? appliedProgress msg)%Z eqn:Hpos.
    + inversion Hs as [|? ? Hrest Hhd]; subst.
      inversion Hhd as [|? ? Hle]; subst.
      rewrite <- Hstep in Hrest. destruct (IH m' Hrest) as [Hsorted _].
      constructor; [exact Hsorted|].
      rewrite Htl. constructor. lia.
    + rewrite <- Hstep in Hs. destruct (IH m' Hs) as [Hsorted _].
      constructor; [exact Hsorted|].
      rewrite Htl. constructor. lia.
Qed.

Lemma progress_follows_applied_witness :
  Sorted Z.le (currentProgress installingModel
                 :: appliedValues [progressMsg 60; progressMsg 0; completeMsg])
  /\ Sorted Z.le
       (progressTrace installingModel
          (feed [progressMsg 60; progressMsg 0; completeMsg]))
  /\ progressTrace installingModel
       (feed [progressMsg 60; progressMsg 0; completeMsg])
     = [50; 60; 60; 100]%Z.
Proof.
  assert (Hs : Sorted Z.le
                 (currentProgress installingModel
                    :: appliedValues [progressMsg 60; progressMsg 0; completeMsg])).
  { change (Sorted Z.le [50; 60; 100]%Z).
    repeat constructor; discriminate. }
  split; [exact Hs|]. split; [|reflexivity].
  exact (proj1 (progress_follows_applied _ installingModel Hs)).
Defined.

(** ** The constructor *)

(** C10: when loading the configuration fails, the initial state has an
    empty step list and shows the configuration-error notification, of
    kind error, under which the start key is refused.  The notification
    does not block: enter or esc dismisses it like any other, and the
    start key is then accepted and starts an installation, against the
    handler's own comment on the start key ("only if no config
    errors"), the footer ("Installation disabled") and the
    notification's text ("Press q to quit").  When loading succeeds,
    the initial state has no notification, keeps the configuration, and
    its steps are those of the configuration: the step of a section is
    among them exactly when the section is switched on, the
    verification step is the last, and there are as many as
    [getTotalConfiguredSteps] counts. *)
Theorem NewModel_outcomes (cfg : option InstallConfig) :
  (forall e,
     let m := NewModel (cfg, Some e) in
     let m1 := withNotification None m in
     let m2 := withInstalling true m1 in
     steps m = []
     /\ notification m = Some (configErrorNotification e)
     /\ showsNotification "error" m
     /\ (forall key, In key ["s"; "S"] -> handleKeypress m key = (m, CmdNil))
     /\ (forall key, In key ["enter"; "esc"] ->
           handleKeypress m key = (m1, CmdNil))
     /\ (forall key, In key ["s"; "S"] ->
           handleKeypress m1 key = (m2, StartInstallation m2)))
  /\ (let m := NewModel (cfg, None) in
      notification m = None
      /\ steps m = getConfigurableSteps cfg
      /\ config m = cfg
      /\ (forall c, cfg = Some c ->
            (In (homebrewStep c) (steps m)
               <-> HombrewConfig_Install (Homebrew c) = true)
            /\ (In (terminalStep c) (steps m)
                  <-> TerminalConfig_Install (Terminal c) = true)
            /\ (In (shellStep c) (steps m)
                  <-> ShellConfig_Install (Shell c) = true)
            /\ (In (devtoolsStep c) (steps m)
                  <-> DevToolsConfig_Install (DevTools c) = true)
            /\ (In (dotfilesStep c) (steps m)
                  <-> DotfilesConfig_Install (Dotfiles c) = true)
            /\ last (steps m) = Some verifyStep
            /\ GoInt.len (steps m) = getTotalConfiguredSteps c)).
Proof.
  split.
  - intros e m m1 m2. split; [reflexivity|]. split; [reflexivity|]. split.
    + exists (configErrorNotification e). now split.
    + split; [|split]; intros key [<-|[<-|[]]]; reflexivity.
  - cbn zeta. split; [reflexivity|]. split; [reflexivity|].
    split; [reflexivity|]. intros c ->.
    change (steps (NewModel (Some c, None)))
      with (getConfigurableSteps (Some c)).
    registry_cases c; cbn;
      repeat split; intros; try reflexivity; try discriminate;
      try (intuition discriminate); auto 10.
Qed.

Lemma NewModel_outcomes_witness :
  steps (NewModel (None, Some "no configuration file found")) = []
  /\ handleKeypress (NewModel (None, Some "no configuration file found")) "s"
     = (NewModel (None, Some "no configuration file found"), CmdNil)
  /\ installing
       (run (NewModel (None, Some "no configuration file found"))
          (keys ["enter"; "s"])) = true
  /\ snd (Update
            (step (NewModel (None, Some "no configuration file found"))
               (KeyMsg "enter")) (KeyMsg "s"))
     = StartInstallation
         (withInstalling true
            (withNotification None
               (NewModel (None, Some "no configuration file found"))))
  /\ steps (NewModel (Some sampleConfig, None))
     = getConfigurableSteps (Some sampleConfig).
Proof.
  destruct (NewModel_outcomes None) as [Hfail _].
  destruct (NewModel_outcomes (Some sampleConfig)) as [_ Hok].
  destruct (Hfail "no configuration file found")
    as (Hsteps & _ & _ & Hstart & Hdismiss & Hafter).
  split; [exact Hsteps|]. split; [apply Hstart; left; reflexivity|].
  split; [reflexivity|]. split.
  - unfold step, Update. rewrite (Hdismiss "enter"); [|left; reflexivity].
    cbn [fst]. rewrite (Hafter "s"); [reflexivity | left; reflexivity].
  - exact (proj1 (proj2 Hok)).
Defined.

(** The registry of the sample configuration: Homebrew is switched on,
    the verification step is always present, every step starts ready
    and enabled. *)
Example sample_registry :
  SetupStep.ID <$> getConfigurableSteps (Some sampleConfig)
  = ["homebrew"; "verify"]
  /\ SetupStep.Items (homebrewStep sampleConfig)
     = ["Homebrew package manager";
        "Brewfile locations: 1 paths configured";
        "Packages from: ~/Brewfile"]
  /\ Forall (fun s => SetupStep.Enabled s = true
                      /\ SetupStep.Status s = StatusReady)
       (getConfigurableSteps (Some sampleConfig))
  /\ getConfigurableSteps None = []
  /\ keyboardLayout (NewModel (Some sampleConfig, None)) = ColemakDH.
Proof. repeat split; repeat constructor. Qed.

(** Two limits of the message fold that the identifier match has by
    construction: the loop stops at the first step with the identifier,
    and an empty identifier selects no step at all. *)
Example record_first_only :
  SetupStep.Status <$>
    steps (step (withSteps [sampleStep "verify" true; sampleStep "verify" true]
                   idleModel)
             (InstallEvent
                (InstallMsg.mk "verify" StatusError 0 "Failed: x" (Some "x"))))
  = [StatusError; StatusReady]
  /\ SetupStep.Status <$>
       steps (step (withSteps [sampleStep EmptyString true] idleModel)
                (InstallEvent
                   (InstallMsg.mk EmptyString StatusError 0 "Failed: x"
                      (Some "x"))))
     = [StatusReady].
Proof. split; reflexivity. Qed.

(** * Further properties of the code *)

(** ** Validation *)

Lemma andThen_None (r k : option string) :
  andThen r k = None <-> r = None /\ k = None.
Proof. destruct r; simpl; split; [easy | intros [? _]; easy | easy | easy]. Qed.

Lemma firstError_None {A} (check : A -> option string) (l : list A) :
  firstError check l = None <-> Forall (fun x => check x = None) l.
Proof.
  induction l as [|x l IH]; simpl.
  - split; [constructor | reflexivity].
  - destruct (check x) eqn:Hx.
    + split; [discriminate|]. intros H. inversion H; subst. congruence.
    + rewrite IH. split; [now constructor | intros H; now inversion H].
Qed.

Lemma length_eqb_0 {A} (l : list A) : (length l =? 0)%nat = false <-> l <> [].
Proof. destruct l; simpl; split; congruence. Qed.

Lemma checkDangerous_None (cmd0 : string) :
  checkDangerous cmd0 = None <-> ~ In cmd0 dangerousCommands.
Proof.
  unfold checkDangerous. rewrite firstError_None, List.Forall_forall.
  split.
  - intros H Hin. specialize (H cmd0 Hin). now rewrite String.eqb_refl in H.
  - intros Hnot d Hd. destruct (String.eqb cmd0 d) eqn:E; [|reflexivity].
    apply String.eqb_eq in E. subst. contradiction.
Qed.

Lemma checkFlag_None (arg : string) :
  checkFlag arg = None
  <-> Contains arg "-rf" = false /\ Contains arg "--force" = false.
Proof.
  unfold checkFlag.
  destruct (Contains arg "-rf"), (Contains arg "--force"); simpl;
    split; try discriminate; try (intros [? ?]; discriminate); auto.
Qed.

Lemma checkInitCommand_None (cmd : list string) :
  checkInitCommand cmd = None <-> safeInitCommand cmd.
Proof.
  unfold safeInitCommand. destruct cmd as [|cmd0 rest].
  - simpl. split; [discriminate | intros [(? & ? & H & _) _]; discriminate].
  - unfold checkInitCommand.
    rewrite andThen_None, checkDangerous_None, firstError_None,
      List.Forall_forall.
    split.
    + intros [Hd Hf]. split.
      * exists cmd0, rest. now split.
      * intros arg Hin. apply checkFlag_None. now apply Hf.
    + intros [(c0 & r & Heq & Hd) Hf]. injection Heq as <- <-. split.
      * exact Hd.
      * intros arg Hin. apply checkFlag_None. now apply Hf.
Qed.

Lemma checkLanguage_None (lang : Language) :
  checkLanguage lang = None <-> wellFormedLanguage lang.
Proof.
  unfold checkLanguage, wellFormedLanguage.
  destruct (String.eqb (Language_Name lang) EmptyString) eqn:Hn.
  - apply String.eqb_eq in Hn. split; [discriminate | intros [H _]; congruence].
  - apply String.eqb_neq in Hn.
    destruct (Language_Enabled lang); simpl.
    + destruct (Commands lang); simpl; split; try discriminate.
      * intros [_ H]. now specialize (H eq_refl).
      * intros _. split; [assumption | discriminate].
      * reflexivity.
    + split; [|reflexivity]. intros _. split; [assumption | discriminate].
Qed.

Lemma Forall_iff_pointwise {A} (P Q : A -> Prop) (l : list A) :
  (forall x, P x <-> Q x) -> Forall P l <-> Forall Q l.
Proof.
  intros H. rewrite !List.Forall_forall.
  split; intros HP x Hx; apply H; now apply HP.
Qed.

Lemma guard_None (b : bool) (e : string) (k : option string) :
  (if b then Some e else k) = None <-> b = false /\ k = None.
Proof. destruct b; split; try discriminate; [intros [? _] | | intros [_ ?]]; easy. Qed.

Lemma enabled_nonempty {A} (b : bool) (l : list A) :
  b && (length l =? 0)%nat = false <-> (b = true -> l <> []).
Proof.
  destruct b, l; simpl; split; try congruence; try discriminate.
  intros H. now specialize (H eq_refl).
Qed.

(** X1: [Validate] returns no error exactly for the configurations in
    which every enabled section has what it needs and, when the shell
    section is enabled, no init command is empty, starts with a
    dangerous command or carries an argument containing "-rf" or
    "--force". *)
Theorem Validate_accepts_iff (c : InstallConfig) :
  Validate c = None <-> validConfig c.
Proof.
  unfold Validate, validConfig.
  rewrite guard_None, !andThen_None, !guard_None, !enabled_nonempty.
  assert (Hshell :
    (if ShellConfig_Install (Shell c)
     then if (length (RequiredTools (Shell c)) =? 0)%nat
          then Some "shell is enabled but no required tools specified"
          else firstError checkInitCommand (InitCommands (Shell c))
     else None) = None
    <-> (ShellConfig_Install (Shell c) = true ->
           RequiredTools (Shell c) <> []
           /\ Forall safeInitCommand (InitCommands (Shell c)))).
  { destruct (ShellConfig_Install (Shell c)); [|easy].
    rewrite guard_None, length_eqb_0, firstError_None.
    rewrite (Forall_iff_pointwise _ _ _ checkInitCommand_None).
    split; [intros H _; exact H | intros H; now apply H]. }
  assert (Hdev :
    (if DevToolsConfig_Install (DevTools c)
     then firstError checkLanguage (Languages (DevTools c))
     else None) = None
    <-> (DevToolsConfig_Install (DevTools c) = true ->
           Forall wellFormedLanguage (Languages (DevTools c)))).
  { destruct (DevToolsConfig_Install (DevTools c)); [|easy].
    rewrite firstError_None.
    rewrite (Forall_iff_pointwise _ _ _ checkLanguage_None).
    split; [intros H _; exact H | intros H; now apply H]. }
  rewrite Hshell, Hdev. tauto.
Qed.


Lemma checkLanguage_sameShape (l l' : Language) :
  sameShape l l' -> checkLanguage l' = checkLanguage l.
Proof.
  intros (Hn & He & Hc). unfold checkLanguage. rewrite Hn, He.
  destruct (String.eqb (Language_Name l') EmptyString); [reflexivity|].
  destruct (Language_Enabled l'); simpl; [|reflexivity].
  destruct (Commands l) as [|? ?], (Commands l') as [|? ?]; simpl;
    try reflexivity.
  - discriminate (proj1 Hc eq_refl).
  - discriminate (proj2 Hc eq_refl).
Qed.

(** X2: the verdict of [Validate] does not depend on the global tools,
    on the tools to verify, or on what the commands of a language are
    (only on whether it has any): the commands the development-tools
    step runs are not screened for dangerous commands or flags. *)
Theorem Validate_ignores_devtools_commands (c : InstallConfig)
  (langs : list Language) (globalTools : list (list string))
  (verifyTools : list string) :
  Forall2 sameShape (Languages (DevTools c)) langs ->
  Validate (replaceDevTools c langs globalTools verifyTools) = Validate c.
Proof.
  intros Hshape. unfold Validate. simpl.
  assert (Hl : firstError checkLanguage langs
               = firstError checkLanguage (Languages (DevTools c))).
  { induction Hshape as [|l l' ls ls' Hs _ IH]; simpl; [reflexivity|].
    now rewrite (checkLanguage_sameShape l l' Hs), IH. }
  now rewrite Hl.
Qed.

Lemma Validate_ignores_devtools_commands_witness :
  Forall2 sameShape (Languages (DevTools devConfig)) [rmLanguage]
  /\ Validate (replaceDevTools devConfig [rmLanguage]
                 [["sudo"; "rm"; "-rf"; "/"]] [])
     = Validate devConfig
  /\ Validate devConfig = None.
Proof.
  assert (Hshape : Forall2 sameShape (Languages (DevTools devConfig))
                     [rmLanguage]).
  { repeat constructor; simpl; discriminate. }
  split; [exact Hshape|]. split; [|reflexivity].
  exact (Validate_ignores_devtools_commands devConfig [rmLanguage]
           [["sudo"; "rm"; "-rf"; "/"]] [] Hshape).
Defined.

(** ** Loading *)

Lemma loadFrom_result (fs : FileSystem) (p : string) :
  (exists c, loadFrom fs p = (Some c, None) /\ Validate c = None)
  \/ (exists e, loadFrom fs p = (None, Some e)).
Proof.
  unfold loadFrom. destruct (ReadFile fs p) as [data|e]; [|right; eauto].
  destruct (Unmarshal fs data) as [c|e]; [|right; eauto].
  destruct (Validate c) eqn:Hv; [right; eauto | left; eauto].
Qed.

Lemma searchConfig_result (fs : FileSystem) (all paths : list string) :
  (exists c, searchConfig fs all paths = (Some c, None) /\ Validate c = None)
  \/ (exists e, searchConfig fs all paths = (None, Some e)).
Proof.
  induction paths as [|p paths IH]; simpl; [right; eauto|].
  destruct (Stat fs p); [apply loadFrom_result | exact IH].
Qed.

Lemma LoadConfig_cases (fs : FileSystem) :
  (exists c, LoadConfig fs = (Some c, None) /\ Validate c = None)
  \/ (exists e, LoadConfig fs = (None, Some e)).
Proof.
  unfold LoadConfig.
  destruct (Getwd fs) as [cd|e]; [|right; eauto].
  destruct (UserHomeDir fs) as [hd|e]; [|right; eauto].
  apply searchConfig_result.
Qed.

(** X3: [LoadConfig] returns either a configuration and no error or an
    error and no configuration, never both and never neither, and a
    configuration it returns has passed [Validate]. *)
Theorem LoadConfig_validated (fs : FileSystem) :
  (exists c, LoadConfig fs = (Some c, None) /\ Validate c = None)
  \/ (exists e, LoadConfig fs = (None, Some e)
               /\ forall c, LoadConfig fs <> (Some c, None)).
Proof.
  destruct (LoadConfig_cases fs) as [(c & Hc & Hv)|(e & He)].
  - left. exists c. now split.
  - right. exists e. split; [exact He|]. intros c Hc. congruence.
Qed.

Lemma searchConfig_first (fs : FileSystem) (all pre post : list string)
  (p : string) :
  Forall (fun q => Stat fs q = false) pre -> Stat fs p = true ->
  searchConfig fs all (pre ++ p :: post) = loadFrom fs p.
Proof.
  intros Hpre Hp. induction Hpre as [|q pre Hq _ IH]; simpl.
  - now rewrite Hp.
  - now rewrite Hq.
Qed.

(** X4: the first of the three configuration paths that exists decides
    the outcome, whatever the later ones hold: a file that cannot be
    read, parsed or validated is an error even when a later path has a
    good configuration; when none exists the outcome is an error. *)
Theorem LoadConfig_first_existing (fs : FileSystem) (cd hd : string) :
  Getwd fs = inl cd -> UserHomeDir fs = inl hd ->
  (forall pre p post,
     configPaths fs cd hd = (pre ++ p :: post)%list ->
     Forall (fun q => Stat fs q = false) pre -> Stat fs p = true ->
     LoadConfig fs = loadFrom fs p)
  /\ (Forall (fun q => Stat fs q = false) (configPaths fs cd hd) ->
      LoadConfig fs =
      (None, Some ("no configuration file found in expected locations: "
                     ++ showSlice (configPaths fs cd hd)))).
Proof.
  intros Hcd Hhd. unfold LoadConfig. rewrite Hcd, Hhd. split.
  - intros pre p post Heq Hpre Hp. rewrite Heq at 2.
    now apply searchConfig_first.
  - generalize (configPaths fs cd hd) at 1 3 as paths.
    intros paths Hnone. induction Hnone as [|q paths Hq _ IH]; simpl.
    + reflexivity.
    + now rewrite Hq.
Qed.

Lemma LoadConfig_first_existing_witness :
  LoadConfig (homeOnly (inl sampleConfig)) = (Some sampleConfig, None)
  /\ LoadConfig (homeOnly (inr "unexpected end of JSON input"))
     = (None,
        Some ("failed to parse config file "
                ++ "/home/u/.config/install-config.json"
                ++ ": unexpected end of JSON input")).
Proof.
  destruct (LoadConfig_first_existing (homeOnly (inl sampleConfig))
              "/work" "/home/u" eq_refl eq_refl) as [Hgood _].
  destruct (LoadConfig_first_existing
              (homeOnly (inr "unexpected end of JSON input"))
              "/work" "/home/u" eq_refl eq_refl) as [Hbad _].
  split.
  - rewrite (Hgood ["/work/install-config.json";
                    "/work//config/install-config.json"]
               "/home/u/.config/install-config.json" []);
      [reflexivity | reflexivity | repeat constructor | reflexivity].
  - rewrite (Hbad ["/work/install-config.json";
                   "/work//config/install-config.json"]
               "/home/u/.config/install-config.json" []);
      [reflexivity | reflexivity | repeat constructor | reflexivity].
Defined.


(** ** The registry *)

Lemma registry_length_bounds (c : InstallConfig) :
  (1 <= length (getConfigurableSteps (Some c)) <= 6)%nat.
Proof. registry_cases c; simpl; lia. Qed.

(** X5: the registry of a configuration has one step per enabled
    section plus the verification step, which is its last: between one
    and six steps, as many as [getTotalConfiguredSteps] counts. *)
Theorem registry_size (c : InstallConfig) :
  GoInt.len (getConfigurableSteps (Some c)) = getTotalConfiguredSteps c
  /\ (1 <= GoInt.len (getConfigurableSteps (Some c)) <= 6)%Z
  /\ last (getConfigurableSteps (Some c)) = Some verifyStep.
Proof. registry_cases c; repeat split; vm_compute; congruence. Qed.

(** X6: the identifiers of a registry are pairwise distinct and come in
    the fixed order homebrew, terminal, shell, devtools, dotfiles,
    verify; every step starts ready, enabled and without error, under
    the title [getStepDisplayName] gives for its identifier. *)
Theorem registry_wellformed (c : InstallConfig) :
  NoDup (SetupStep.ID <$> getConfigurableSteps (Some c))
  /\ sublist (SetupStep.ID <$> getConfigurableSteps (Some c)) knownIDs
  /\ Forall freshStep (getConfigurableSteps (Some c)).
Proof.
  split; [|split].
  - registry_cases c; simpl;
      repeat (apply NoDup_cons_2;
              [rewrite list_elem_of_In; simpl; intuition discriminate|]);
      constructor.
  - registry_cases c; simpl; unfold knownIDs;
      repeat first [apply sublist_nil | apply sublist_skip | apply sublist_cons].
  - registry_cases c; simpl; repeat constructor.
Qed.


(** ** Invariants of the transition function *)

Lemma handleKeypress_outcomes (m : Model) (key : string) :
  In (fst (handleKeypress m key)) (keyOutcomes m).
Proof.
  unfold handleKeypress, keyOutcomes, keyIs. simpl existsb.
  destruct (isNil (notification m)), (installing m), (keyboardLayout m);
    simpl; key_cases key; simpl; tauto.
Qed.

Lemma sameIdentity_refl (s : SetupStep) : sameIdentity s s.
Proof. reflexivity. Qed.

Lemma sameIdentity_list_refl (l : list SetupStep) : Forall2 sameIdentity l l.
Proof. induction l; constructor; [reflexivity | assumption]. Qed.

Lemma sameIdentity_trans (l1 l2 l3 : list SetupStep) :
  Forall2 sameIdentity l1 l2 -> Forall2 sameIdentity l2 l3 ->
  Forall2 sameIdentity l1 l3.
Proof.
  intros H12. revert l3. induction H12 as [|a b l1 l2 Hab _ IH]; intros l3 H23.
  - inversion H23. constructor.
  - inversion H23 as [|b' c l2' l3' Hbc Hrest]; subst. constructor.
    + unfold sameIdentity in *. congruence.
    + now apply IH.
Qed.

Lemma recordOn_identity (msg : InstallMsg) (s : SetupStep) :
  sameIdentity s (recordOn msg s).
Proof. unfold sameIdentity, recordOn. now destruct (InstallMsg.Error msg). Qed.

Lemma recordStatus_identity (msg : InstallMsg) (l : list SetupStep) :
  Forall2 sameIdentity l (recordStatus msg l).
Proof.
  induction l as [|s l IH]; simpl; [constructor|].
  destruct (String.eqb (SetupStep.ID s) (InstallMsg.StepID msg)).
  - constructor; [apply recordOn_identity | apply sameIdentity_list_refl].
  - constructor; [reflexivity | exact IH].
Qed.

Lemma completeEnabled_identity (l : list SetupStep) :
  Forall2 sameIdentity l (completeEnabled l).
Proof.
  induction l as [|s l IH]; simpl; constructor; [|exact IH].
  unfold sameIdentity, markComplete. now destruct (SetupStep.Enabled s).
Qed.

Lemma alter_flip_identity (i : nat) (l : list SetupStep) :
  Forall2 sameIdentity l (alter flipEnabled i l).
Proof.
  revert i. induction l as [|s l IH]; intros [|i]; simpl; constructor;
    try reflexivity; try apply sameIdentity_list_refl.
  apply IH.
Qed.

Lemma foldInstallMsg_identity (m : Model) (msg : InstallMsg) :
  Forall2 sameIdentity (steps m) (steps (foldInstallMsg m msg)).
Proof.
  rewrite foldInstallMsg_steps.
  assert (Hrec : Forall2 sameIdentity (steps m) (afterRecord m msg)).
  { unfold afterRecord.
    destruct (negb (String.eqb (InstallMsg.StepID msg) EmptyString));
      [apply recordStatus_identity | apply sameIdentity_list_refl]. }
  destruct (Contains (InstallMsg.Message msg) "complete!"); [|exact Hrec].
  eapply sameIdentity_trans; [exact Hrec | apply completeEnabled_identity].
Qed.

Lemma keyOutcomes_identity (m m' : Model) :
  In m' (keyOutcomes m) -> Forall2 sameIdentity (steps m) (steps m').
Proof.
  unfold keyOutcomes. simpl.
  intros [<-|[<-|[<-|[<-|[<-|[<-|[<-|[<-|[]]]]]]]]];
    try apply sameIdentity_list_refl.
  - rewrite selectPrevious_steps. apply sameIdentity_list_refl.
  - rewrite selectNext_steps. apply sameIdentity_list_refl.
  - unfold toggleStep.
    destruct ((0 <=? selectedStep m)%Z
              && (selectedStep m <? GoInt.len (steps m))%Z); simpl;
      [apply alter_flip_identity | apply sameIdentity_list_refl].
Qed.

Lemma step_identity (m : Model) (msg : Msg) :
  Forall2 sameIdentity (steps m) (steps (step m msg)).
Proof.
  destruct msg as [w h|key|im|]; unfold step; simpl;
    try apply sameIdentity_list_refl.
  - apply keyOutcomes_identity, handleKeypress_outcomes.
  - apply foldInstallMsg_identity.
Qed.

Lemma sameIdentity_ID (l l' : list SetupStep) :
  Forall2 sameIdentity l l' -> SetupStep.ID <$> l' = SetupStep.ID <$> l.
Proof.
  induction 1 as [|s s' l l' Hs _ IH]; simpl; [reflexivity|].
  f_equal; [|exact IH].
  apply (f_equal SetupStep.ID) in Hs. exact Hs.
Qed.

Lemma run_identity (msgs : list Msg) : forall m : Model,
  Forall2 sameIdentity (steps m) (steps (run m msgs)).
Proof.
  induction msgs as [|msg msgs IH]; intros m.
  - apply sameIdentity_list_refl.
  - change (run m (msg :: msgs)) with (run (step m msg) msgs).
    eapply sameIdentity_trans; [apply step_identity | apply IH].
Qed.

(** X7: no sequence of events adds, removes or reorders steps, and no
    event changes a step beyond its status, error text and enabled flag:
    in particular the list of identifiers is the same after every run. *)
Theorem registry_is_stable (msgs : list Msg) (m : Model) :
  Forall2 sameIdentity (steps m) (steps (run m msgs))
  /\ SetupStep.ID <$> steps (run m msgs) = SetupStep.ID <$> steps m
  /\ length (steps (run m msgs)) = length (steps m).
Proof.
  pose proof (run_identity msgs m) as Hrun.
  split; [exact Hrun|]. split.
  - now apply sameIdentity_ID.
  - symmetry. eapply Forall2_length, Hrun.
Qed.

Lemma alter_flip_Status (i : nat) (l : list SetupStep) :
  SetupStep.Status <$> alter flipEnabled i l = SetupStep.Status <$> l
  /\ SetupStep.Error <$> alter flipEnabled i l = SetupStep.Error <$> l.
Proof.
  revert i. induction l as [|s l IH]; intros [|i]; simpl; split;
    try reflexivity; f_equal; apply IH.
Qed.

Lemma keyOutcomes_untouched (m m' : Model) :
  In m' (keyOutcomes m) -> untouchedByKeys m m'.
Proof.
  unfold keyOutcomes, untouchedByKeys. simpl.
  intros [<-|[<-|[<-|[<-|[<-|[<-|[<-|[<-|[]]]]]]]]];
    try (repeat split; reflexivity).
  - unfold selectPrevious. destruct (0 <? selectedStep m)%Z;
      repeat split; reflexivity.
  - unfold selectNext.
    destruct (selectedStep m <? GoInt.sub (GoInt.len (steps m)) 1)%Z;
      repeat split; reflexivity.
  - unfold toggleStep.
    destruct ((0 <=? selectedStep m)%Z
              && (selectedStep m <? GoInt.len (steps m))%Z); simpl;
      repeat split; try reflexivity; apply alter_flip_Status.
Qed.

Lemma recordStatus_Enabled_list (msg : InstallMsg) (l : list SetupStep) :
  SetupStep.Enabled <$> recordStatus msg l = SetupStep.Enabled <$> l.
Proof.
  induction l as [|s l IH]; [reflexivity|]. cbn [recordStatus].
  destruct (String.eqb (SetupStep.ID s) (InstallMsg.StepID msg));
    rewrite !fmap_cons.
  - now rewrite recordOn_Enabled.
  - now rewrite IH.
Qed.

Lemma completeEnabled_Enabled_list (l : list SetupStep) :
  SetupStep.Enabled <$> completeEnabled l = SetupStep.Enabled <$> l.
Proof.
  unfold completeEnabled. induction l as [|s l IH]; [reflexivity|].
  rewrite !fmap_cons, IH. f_equal. unfold markComplete.
  destruct (SetupStep.Enabled s) eqn:E; simpl; congruence.
Qed.

Lemma foldInstallMsg_untouched (m : Model) (msg : InstallMsg) :
  untouchedByMessages m (foldInstallMsg m msg).
Proof.
  unfold untouchedByMessages.
  assert (Hen : SetupStep.Enabled <$> steps (foldInstallMsg m msg)
                = SetupStep.Enabled <$> steps m).
  { rewrite foldInstallMsg_steps.
    assert (Hrec : SetupStep.Enabled <$> afterRecord m msg
                   = SetupStep.Enabled <$> steps m).
    { unfold afterRecord.
      destruct (negb (String.eqb (InstallMsg.StepID msg) EmptyString));
        [apply recordStatus_Enabled_list | reflexivity]. }
    destruct (Contains (InstallMsg.Message msg) "complete!");
      [now rewrite completeEnabled_Enabled_list | exact Hrec]. }
  unfold foldInstallMsg in *.
  destruct (negb (String.eqb (InstallMsg.StepID msg) EmptyString));
    destruct (InstallMsg.Error msg);
    destruct (0 <? InstallMsg.Progress msg)%Z;
    destruct (negb (String.eqb (InstallMsg.Message msg) EmptyString));
    destruct (Contains (InstallMsg.Message msg) "complete!");
    repeat split; try reflexivity; exact Hen.
Qed.

(** X8: the two kinds of event write disjoint parts of the state.  A key
    never changes the progress, the status message, the dimensions, the
    configuration or the status and error text of any step, and leaves
    the steps untouched altogether unless it is enter or the space bar;
    a progress/result event never changes the selection, the layout,
    the help flag, the dimensions, the configuration or the enabled
    flag of any step. *)
Theorem events_write_disjoint_fields (m : Model) :
  (forall key,
     untouchedByKeys m (step m (KeyMsg key))
     /\ (keyIs key ["enter"; " "] = false ->
           steps (step m (KeyMsg key)) = steps m))
  /\ (forall msg, untouchedByMessages m (step m (InstallEvent msg))).
Proof.
  split.
  - intros key. split.
    + apply keyOutcomes_untouched, handleKeypress_outcomes.
    + unfold step. simpl. unfold handleKeypress, keyIs. simpl existsb.
      intros Hk.
      apply orb_false_elim in Hk. destruct Hk as [Henter Hspace].
      apply orb_false_elim in Hspace. destruct Hspace as [Hspace _].
      rewrite ?Henter, ?Hspace.
      destruct (isNil (notification m)), (installing m), (keyboardLayout m);
        simpl; key_cases key; simpl;
        rewrite ?selectPrevious_steps, ?selectNext_steps; reflexivity.
  - intros msg. apply foldInstallMsg_untouched.
Qed.


Lemma sliceOk_length (l l' : list SetupStep) :
  length l' = length l -> GoInt.sliceOk l -> GoInt.sliceOk l'.
Proof. unfold GoInt.sliceOk, GoInt.len. now intros ->. Qed.

Lemma selectionValid_same (m m' : Model) :
  selectedStep m' = selectedStep m -> length (steps m') = length (steps m) ->
  selectionValid m -> selectionValid m'.
Proof. unfold selectionValid, GoInt.len. now intros -> ->. Qed.

Lemma keyOutcomes_valid (m m' : Model) :
  GoInt.sliceOk (steps m) -> selectionValid m ->
  In m' (keyOutcomes m) -> selectionValid m'.
Proof.
  intros Hok Hsel. unfold keyOutcomes. simpl.
  intros [<-|[<-|[<-|[<-|[<-|[<-|[<-|[<-|[]]]]]]]]]; try exact Hsel.
  - now apply selectPrevious_valid.
  - now apply selectNext_valid.
  - unfold toggleStep.
    destruct ((0 <=? selectedStep m)%Z
              && (selectedStep m <? GoInt.len (steps m))%Z); [|exact Hsel].
    apply (selectionValid_same m); simpl;
      [reflexivity | apply length_alter | exact Hsel].
Qed.

Lemma step_length (m : Model) (msg : Msg) :
  length (steps (step m msg)) = length (steps m).
Proof. symmetry. eapply Forall2_length, step_identity. Qed.

Lemma step_valid (m : Model) (msg : Msg) :
  GoInt.sliceOk (steps m) -> selectionValid m -> selectionValid (step m msg).
Proof.
  intros Hok Hsel. destruct msg as [w h|key|im|]; try exact Hsel.
  - apply (keyOutcomes_valid m); try assumption.
    apply handleKeypress_outcomes.
  - apply (selectionValid_same m); [| apply step_length | exact Hsel].
    apply (foldInstallMsg_untouched m im).
Qed.

Lemma run_valid (msgs : list Msg) : forall m : Model,
  GoInt.sliceOk (steps m) -> selectionValid m -> selectionValid (run m msgs).
Proof.
  induction msgs as [|msg msgs IH]; intros m Hok Hsel; [exact Hsel|].
  change (run m (msg :: msgs)) with (run (step m msg) msgs).
  apply IH; [|now apply step_valid].
  apply (sliceOk_length (steps m)); [apply step_length | exact Hok].
Qed.

(** X9: the selection stays an index of the step list under every
    event, not only under navigation: once selectedStep is within
    [0, len(steps)-1], it is so in every state passed through by any
    sequence of key, resize, progress/result and other events. *)
Theorem selection_always_valid (msgs : list Msg) : forall m : Model,
  GoInt.sliceOk (steps m) -> selectionValid m ->
  Forall selectionValid (trace m msgs).
Proof.
  induction msgs as [|msg msgs IH]; intros m Hok Hsel; simpl.
  - constructor; [exact Hsel | constructor].
  - constructor; [exact Hsel|]. apply IH.
    + apply (sliceOk_length (steps m)); [apply step_length | exact Hok].
    + now apply step_valid.
Qed.

Lemma selection_always_valid_witness :
  Forall selectionValid
    (trace idleModel
       [KeyMsg "e"; InstallEvent failedMsg; KeyMsg "enter"; KeyMsg " ";
        WindowSizeMsg 80 24; KeyMsg "e"; InstallEvent completeMsg;
        KeyMsg "u"; OtherMsg]).
Proof.
  apply selection_always_valid.
  - vm_compute. discriminate.
  - vm_compute. split; discriminate.
Defined.

(** X10: whatever the file system holds, the program starts either
    with no steps and a configuration-error notification, or with the
    registry of a configuration that passed [Validate] and no
    notification; in the second case the selection is an index of the
    step list at start and after every sequence of events. *)
Theorem startup_state (fs : FileSystem) :
  (exists e,
     LoadConfig fs = (None, Some e)
     /\ steps (NewModel (LoadConfig fs)) = []
     /\ notification (NewModel (LoadConfig fs))
        = Some (configErrorNotification e))
  \/ (exists c,
        LoadConfig fs = (Some c, None)
        /\ Validate c = None
        /\ steps (NewModel (LoadConfig fs)) = getConfigurableSteps (Some c)
        /\ notification (NewModel (LoadConfig fs)) = None
        /\ forall msgs, selectionValid (run (NewModel (LoadConfig fs)) msgs)).
Proof.
  destruct (LoadConfig_cases fs) as [(c & Hc & Hv)|(e & He)].
  - right. exists c. rewrite Hc.
    split; [reflexivity|]. split; [exact Hv|].
    split; [reflexivity|]. split; [reflexivity|].
    intros msgs. pose proof (registry_length_bounds c) as Hlen.
    assert (Hm : steps (NewModel (Some c, None))
                 = getConfigurableSteps (Some c)) by reflexivity.
    assert (Hs : selectedStep (NewModel (Some c, None)) = 0%Z) by reflexivity.
    apply run_valid.
    + unfold GoInt.sliceOk, GoInt.maxInt, GoInt.len. rewrite Hm. lia.
    + unfold selectionValid, GoInt.len. rewrite Hm, Hs. lia.
  - left. exists e. rewrite He. repeat split.
Qed.


Lemma step_percent (m : Model) (msg : Msg) :
  percent (currentProgress m) ->
  match msg with
  | InstallEvent im => (InstallMsg.Progress im <= 100)%Z
  | _ => True
  end ->
  percent (currentProgress (step m msg)).
Proof.
  intros Hp Hb. destruct msg as [w h|key|im|]; try exact Hp.
  - destruct (keyOutcomes_untouched m (step m (KeyMsg key))
                (handleKeypress_outcomes m key)) as [-> _]. exact Hp.
  - unfold step. simpl. rewrite foldInstallMsg_currentProgress.
    unfold percent in *.
    destruct (Contains (InstallMsg.Message im) "complete!"); [lia|].
    destruct (0 <? InstallMsg.Progress im)%Z eqn:Hpos; [|exact Hp].
    apply Z.ltb_lt in Hpos. lia.
Qed.

(** X11: currentProgress stays a percentage: if it is within 0 and 100
    and no progress/result event of a sequence carries a value above
    100, it is within 0 and 100 after the sequence, whatever keys and
    resizes are mixed in; a value below 1 in a message is never
    applied. *)
Theorem progress_stays_percentage (msgs : list Msg) : forall m : Model,
  percent (currentProgress m) -> boundedFeed msgs ->
  percent (currentProgress (run m msgs)).
Proof.
  induction msgs as [|msg msgs IH]; intros m Hp Hb; [exact Hp|].
  inversion Hb as [|? ? Hmsg Hrest]; subst.
  change (run m (msg :: msgs)) with (run (step m msg) msgs).
  apply IH; [|exact Hrest]. now apply step_percent.
Qed.

Lemma progress_stays_percentage_witness :
  percent (currentProgress
             (run installingModel
                [InstallEvent (progressMsg 60); KeyMsg "e";
                 InstallEvent (progressMsg (-5)); InstallEvent completeMsg])).
Proof.
  apply progress_stays_percentage.
  - vm_compute. split; discriminate.
  - repeat constructor; vm_compute; discriminate.
Defined.

(** X12: an installation is started by the start key only, and only
    from a state that is not installing and shows no notification: if
    [Update] returns the installation command, the event was the key
    "s" or "S", installing was false, no notification was active, and
    the command closes over the returned state, which is the old one
    with installing set.  So no second installation starts while one is
    running. *)
Theorem start_only_when_idle (m m' : Model) (msg : Msg) :
  snd (Update m msg) = StartInstallation m' ->
  (msg = KeyMsg "s" \/ msg = KeyMsg "S")
  /\ installing m = false
  /\ notification m = None
  /\ m' = withInstalling true m
  /\ fst (Update m msg) = m'.
Proof.
  destruct msg as [w h|key|im|]; simpl; try discriminate.
  unfold handleKeypress, keyIs, toggleStep. simpl existsb.
  destruct (notification m) eqn:Hn, (installing m) eqn:Hi,
    (keyboardLayout m); simpl; key_cases key; simpl;
    repeat match goal with
           | |- context [if ?b then _ else _] => destruct b; simpl
           end;
    try discriminate;
    intros Hcmd; injection Hcmd as <-;
    repeat match goal with
           | E : String.eqb key _ = true |- _ =>
               apply String.eqb_eq in E; subst key
           end;
    repeat split; auto.
Qed.

Lemma start_only_when_idle_witness :
  snd (Update idleModel (KeyMsg "s"))
  = StartInstallation (withInstalling true idleModel)
  /\ installing idleModel = false /\ notification idleModel = None.
Proof.
  assert (Hcmd : snd (Update idleModel (KeyMsg "s"))
                 = StartInstallation (withInstalling true idleModel))
    by reflexivity.
  destruct (start_only_when_idle idleModel _ _ Hcmd) as (_ & Hi & Hn & _).
  split; [exact Hcmd|]. now split.
Defined.

(** X13: a notification is cleared by the keys enter and esc only: if a
    state shows a notification and the state after an event shows none,
    the event was one of these two keys.  Progress/result events may
    replace a notification but never remove it. *)
Theorem notification_cleared_by_dismiss_only (m : Model) (msg : Msg) :
  notification m <> None ->
  notification (step m msg) = None ->
  msg = KeyMsg "enter" \/ msg = KeyMsg "esc".
Proof.
  intros Hn Hnone. destruct msg as [w h|key|im|]; try contradiction.
  - unfold step in Hnone. simpl in Hnone.
    destruct (String.eqb key "enter") eqn:Eenter;
      [apply String.eqb_eq in Eenter; left; congruence|].
    destruct (String.eqb key "esc") eqn:Eesc;
      [apply String.eqb_eq in Eesc; right; congruence|].
    exfalso. revert Hnone.
    unfold handleKeypress, keyIs, toggleStep. simpl existsb.
    rewrite Eenter, Eesc.
    destruct (notification m) eqn:Hnm; [|congruence].
    destruct (installing m), (keyboardLayout m); simpl; key_cases key;
      simpl;
      repeat match goal with
             | |- context [if ?b then _ else _] => destruct b; simpl
             end;
      unfold selectPrevious, selectNext;
      repeat match goal with
             | |- context [if ?b then _ else _] => destruct b; simpl
             end;
      rewrite ?Hnm; discriminate.
  - exfalso. unfold step in Hnone. simpl in Hnone.
    rewrite foldInstallMsg_notification in Hnone.
    destruct (Contains (InstallMsg.Message im) "complete!"); [discriminate|].
    destruct (InstallMsg.Error im); [discriminate | contradiction].
Qed.

Lemma notification_cleared_by_dismiss_only_witness :
  notification notifiedModel <> None
  /\ notification (step notifiedModel (KeyMsg "esc")) = None.
Proof.
  assert (Hn : notification notifiedModel <> None) by discriminate.
  assert (Hc : notification (step notifiedModel (KeyMsg "esc")) = None)
    by reflexivity.
  destruct (notification_cleared_by_dismiss_only notifiedModel _ Hn Hc);
    now split.
Defined.

Lemma quit_only_on_quit_keys (m : Model) (msg : Msg) :
  snd (Update m msg) = Quit ->
  (msg = KeyMsg "q" \/ msg = KeyMsg "ctrl+c"
   \/ (msg = KeyMsg "esc" /\ notification m = None))
  /\ fst (Update m msg) = m.
Proof.
  destruct msg as [w h|key|im|]; simpl; try discriminate.
  unfold handleKeypress, keyIs, toggleStep. simpl existsb.
  destruct (notification m) eqn:Hn, (installing m), (keyboardLayout m);
    simpl; key_cases key; simpl;
    repeat match goal with
           | |- context [if ?b then _ else _] => destruct b; simpl
           end;
    try discriminate; intros _;
    repeat match goal with
           | E : String.eqb key _ = true |- _ =>
               apply String.eqb_eq in E; subst key
           end;
    try discriminate; auto.
Qed.

(** X14: the program asks to quit on "q" and "ctrl+c" in every state and
    on "esc" when no notification is showing, and on nothing else; the
    state it returns with the quit command is the one it was given.
    Under a notification "esc" dismisses instead of quitting. *)
Theorem quit_keys (m : Model) (msg : Msg) :
  (snd (Update m msg) = Quit
   <-> (msg = KeyMsg "q" \/ msg = KeyMsg "ctrl+c"
        \/ (msg = KeyMsg "esc" /\ notification m = None)))
  /\ (snd (Update m msg) = Quit -> fst (Update m msg) = m)
  /\ (notification m <> None ->
        Update m (KeyMsg "esc") = (withNotification None m, CmdNil)).
Proof.
  split; [split|split].
  - intros Hq. now apply quit_only_on_quit_keys.
  - intros [->|[->|[-> Hn]]]; simpl; unfold handleKeypress; simpl;
      rewrite ?andb_false_r, ?Hn; reflexivity.
  - intros Hq. now apply quit_only_on_quit_keys.
  - intros Hn. simpl. unfold handleKeypress.
    destruct (notification m); [reflexivity | congruence].
Qed.

Lemma quit_keys_witness :
  snd (Update notifiedModel (KeyMsg "q")) = Quit
  /\ fst (Update notifiedModel (KeyMsg "q")) = notifiedModel
  /\ Update notifiedModel (KeyMsg "esc")
     = (withNotification None notifiedModel, CmdNil)
  /\ snd (Update idleModel (KeyMsg "esc")) = Quit.
Proof.
  destruct (quit_keys notifiedModel (KeyMsg "q")) as (Hiff & Hsame & Hesc).
  destruct (quit_keys idleModel (KeyMsg "esc")) as (Hiff' & _ & _).
  assert (Hq : snd (Update notifiedModel (KeyMsg "q")) = Quit)
    by (apply Hiff; left; reflexivity).
  split; [exact Hq|]. split; [exact (Hsame Hq)|].
  split; [apply Hesc; discriminate|].
  apply Hiff'. right. right. now split.
Defined.

(** ** The frame *)

Lemma contentHeight_value (m : Model) :
  (10 <= height m)%Z -> GoInt.inRange (height m) ->
  contentHeight m
  = (height m - 6 - if isNil (notification m) then 0 else 1)%Z.
Proof.
  intros Hh Hr. unfold contentHeight, GoInt.sub.
  rewrite (wrap_inRange (height m - 6)) by int_range.
  destruct (isNil (notification m)); [lia|].
  rewrite wrap_inRange by int_range. lia.
Qed.

(** X15: which frame [View] renders.  The help screen has priority over
    everything; without it the frame is the loading placeholder when a
    dimension is 0, the too-small message when the width is below 50 or
    the height below 10 (negative dimensions included), and the two
    panes otherwise.  In the two-pane frame the navigation width is
    between 24 and 50, the detail width at least 20, the two and the
    allowance of 6 make up the width exactly, and the content height is
    height - 6, one less under a notification, hence at least 3. *)
Theorem View_frames (m : Model) :
  GoInt.inRange (width m) -> GoInt.inRange (height m) ->
  (View m = HelpFrame <-> showHelp m = true)
  /\ (View m = LoadingFrame
      <-> showHelp m = false /\ (width m = 0 \/ height m = 0)%Z)
  /\ (View m = TooSmallFrame
      <-> showHelp m = false /\ width m <> 0%Z /\ height m <> 0%Z
          /\ (width m < 50 \/ height m < 10)%Z)
  /\ (forall navWidth detailWidth h,
        View m = PanesFrame navWidth detailWidth h ->
        showHelp m = false /\ (50 <= width m)%Z /\ (10 <= height m)%Z
        /\ (24 <= navWidth <= 50)%Z /\ (20 <= detailWidth)%Z
        /\ (navWidth + detailWidth + 6 = width m)%Z
        /\ h = (height m - 6 - if isNil (notification m) then 0 else 1)%Z
        /\ (3 <= h)%Z).
Proof.
  intros Hrw Hrh. unfold View.
  destruct (showHelp m);
    [solve [intuition (try discriminate; try congruence)]|].
  destruct (width m =? 0)%Z eqn:Hw0;
    [apply Z.eqb_eq in Hw0 | apply Z.eqb_neq in Hw0]; simpl;
    [solve [intuition (try discriminate; try congruence; try lia)]|].
  destruct (height m =? 0)%Z eqn:Hh0;
    [apply Z.eqb_eq in Hh0 | apply Z.eqb_neq in Hh0]; simpl;
    [solve [intuition (try discriminate; try congruence; try lia)]|].
  destruct (width m <? 50)%Z eqn:Hw50;
    [apply Z.ltb_lt in Hw50 | apply Z.ltb_ge in Hw50]; simpl;
    [solve [intuition (try discriminate; try congruence; try lia)]|].
  destruct (height m <? 10)%Z eqn:Hh10;
    [apply Z.ltb_lt in Hh10 | apply Z.ltb_ge in Hh10]; simpl;
    [solve [intuition (try discriminate; try congruence; try lia)]|].
  destruct (paneWidths_fit (width m) Hw50 Hrw) as [Hsum _].
  destruct (tierNavWidth_bounds (width m) Hw50 Hrw) as (Hb & _).
  pose proof (contentHeight_value m Hh10 Hrh) as Hch.
  assert (Hnav : (24 <= fst (paneWidths (width m)) <= 50)%Z
                 /\ (20 <= snd (paneWidths (width m)))%Z).
  { revert Hsum. unfold paneWidths. rewrite (detail_sub _ Hw50 Hrw).
    destruct (width m - tierNavWidth (width m) - 6 <? 20)%Z eqn:Hd;
      [apply Z.ltb_lt in Hd | apply Z.ltb_ge in Hd]; simpl; lia. }
  destruct (paneWidths (width m)) as [nav det]. simpl in Hsum, Hnav.
  split; [split; [discriminate | intros Hf; discriminate Hf]|].
  split; [split; [discriminate | intros [_ [?|?]]; contradiction]|].
  split; [split; [discriminate | intros (_ & _ & _ & [?|?]); lia]|].
  intros navWidth detailWidth h Heq. injection Heq as <- <- <-.
  rewrite Hch. repeat split; try lia.
  destruct (isNil (notification m)); lia.
Qed.


Lemma View_frames_witness :
  View (withSize 50 10 notifiedModel) = PanesFrame 24 20 3
  /\ (24 <= 24 <= 50)%Z /\ (3 <= 3)%Z.
Proof.
  destruct (View_frames (withSize 50 10 notifiedModel)) as (_ & _ & _ & Hp).
  - vm_compute. split; discriminate.
  - vm_compute. split; discriminate.
  - destruct (Hp 24%Z 20%Z 3%Z eq_refl) as (_ & _ & _ & Hnav & _ & _ & _ & Hh).
    split; [reflexivity|]. now split.
Defined.

(** ** Running an installation *)

Lemma successText_complete (ds : DotfilesStatus) :
  Contains (successText ds) "complete!" = true.
Proof.
  unfold successText.
  destruct (IsCleanInstall ds && (0 <? GoInt.len (MissingFiles ds))%Z);
    reflexivity.
Qed.

Lemma enabledIDs_cons (s : SetupStep) (l : list SetupStep) :
  enabledIDs (s :: l) =
  if SetupStep.Enabled s then SetupStep.ID s :: enabledIDs l
  else enabledIDs l.
Proof.
  unfold enabledIDs. destruct (SetupStep.Enabled s) eqn:E.
  - rewrite filter_cons_True by exact E. reflexivity.
  - rewrite filter_cons_False by congruence. reflexivity.
Qed.


Section Installation.

Context {W : Type} (acts : Installer W).

Lemma installLoop_outcome (l : list SetupStep) :
  forall (executed : list string) (ds : DotfilesStatus) (w : W),
    let r := installLoop acts l executed ds w in
    (InstallMsg.Error (resultMsg r) = None
     /\ InstallMsg.StepID (resultMsg r) = EmptyString
     /\ InstallMsg.Progress (resultMsg r) = 100%Z
     /\ Contains (InstallMsg.Message (resultMsg r)) "complete!" = true
     /\ executedSteps r = (executed ++ enabledIDs l)%list)
    \/ (exists pre st post e,
          l = (pre ++ st :: post)%list
          /\ SetupStep.Enabled st = true
          /\ resultMsg r = failureMsg (SetupStep.ID st) e
          /\ executedSteps r
             = (executed ++ enabledIDs pre ++ [SetupStep.ID st])%list).
Proof.
  induction l as [|s l IH]; intros executed ds w; cbn zeta.
  - left. simpl. rewrite app_nil_r.
    repeat split. apply successText_complete.
  - cbn [installLoop]. rewrite enabledIDs_cons.
    destruct (SetupStep.Enabled s) eqn:Hen; simpl negb; cbv iota.
    + destruct (runAction acts (SetupStep.ID s)
                  (executed ++ [SetupStep.ID s]) ds w)
        as [[[e|] ds'] w'] eqn:Hact.
      * right. exists [], s, l, e. simpl. repeat split. exact Hen.
      * destruct (IH (executed ++ [SetupStep.ID s])%list ds' w')
          as [(He & Hid & Hp & Hc & Hex)|(pre & st & post & e & Hl & Hst & Hm & Hex)].
        -- left. repeat split; try assumption.
           rewrite Hex, <- app_assoc. reflexivity.
        -- right. exists (s :: pre), st, post, e.
           repeat split; try assumption.
           ++ now rewrite Hl.
           ++ rewrite Hex, enabledIDs_cons, Hen, <- app_assoc. reflexivity.
    + destruct (IH executed ds w)
        as [(He & Hid & Hp & Hc & Hex)|(pre & st & post & e & Hl & Hst & Hm & Hex)].
      * left. repeat split; assumption.
      * right. exists (s :: pre), st, post, e.
        repeat split; try assumption.
        -- now rewrite Hl.
        -- now rewrite Hex, enabledIDs_cons, Hen.
Qed.


(** X17: whatever the step implementations do, the message a run
    returns ends the installing state when it is folded in: in any
    state it arrives in, [Update] leaves installing false and a
    notification showing, of kind error or success.  When the run
    succeeded, the notification is the completion notification,
    currentProgress is 100 and every step enabled at that time has
    status Complete. *)
Theorem run_result_ends_installing (m m1 : Model) (ds : DotfilesStatus)
  (w : W) (r : RunResult W) :
  runInstallation acts m ds w = Some r ->
  let msg := resultMsg r in
  let m' := step m1 (InstallEvent msg) in
  installing m' = false
  /\ (showsNotification "error" m' \/ showsNotification "success" m')
  /\ (InstallMsg.Error msg = None ->
        notification m' = Some completeNotification
        /\ currentProgress m' = 100%Z
        /\ forall i st, steps m1 !! i = Some st ->
             SetupStep.Enabled st = true ->
             exists st', steps m' !! i = Some st'
               /\ SetupStep.Status st' = StatusComplete).
Proof.
  intros Hrun. cbn zeta. unfold step. simpl.
  set (msg := resultMsg r).
  assert (Hcases : Contains (InstallMsg.Message msg) "complete!" = true
                   \/ exists e, InstallMsg.Error msg = Some e).
  { unfold msg. unfold runInstallation in Hrun.
    destruct (initLogger acts w) as [w1|]; [|discriminate].
    injection Hrun as <-.
    destruct (installLoop_outcome (steps m) [] ds w1)
      as [(_ & _ & _ & Hc & _)|(pre & st & post & e & _ & _ & Hm & _)].
    - now left.
    - right. exists e. now rewrite Hm. }
  rewrite foldInstallMsg_installing, foldInstallMsg_notification,
    foldInstallMsg_currentProgress.
  unfold showsNotification. rewrite foldInstallMsg_notification.
  destruct (Contains (InstallMsg.Message msg) "complete!") eqn:Hc.
  - split; [reflexivity|]. split.
    + right. exists completeNotification. now split.
    + intros _. split; [reflexivity|]. split; [reflexivity|].
      intros i st Hi Hen. now apply (fold_completes m1 msg i st).
  - destruct Hcases as [Hc'|(e & He)]; [discriminate|]. rewrite He.
    split; [reflexivity|]. split.
    + left. eexists. split; reflexivity.
    + intros Hnone. congruence.
Qed.

End Installation.

Lemma run_result_ends_installing_witness :
  runInstallation shellFails
    (withSteps (flipEnabled <$> sampleSteps) idleModel) noDotfiles tt
  = Some (Build_RunResult unit (failureMsg "shell" "zsh is not installed")
            ["shell"] noDotfiles tt)
  /\ installing
       (step installingModel
          (InstallEvent (failureMsg "shell" "zsh is not installed")))
     = false
  /\ showsNotification "error"
       (step installingModel
          (InstallEvent (failureMsg "shell" "zsh is not installed"))).
Proof.
  assert (Hrun : runInstallation shellFails
                   (withSteps (flipEnabled <$> sampleSteps) idleModel)
                   noDotfiles tt
                 = Some (Build_RunResult unit
                           (failureMsg "shell" "zsh is not installed")
                           ["shell"] noDotfiles tt)) by reflexivity.
  destruct (run_result_ends_installing shellFails _ installingModel _ _ _ Hrun)
    as (Hinst & _ & _).
  split; [exact Hrun|]. split; [exact Hinst|].
  eexists. split; reflexivity.
Defined.

(** The sample runs: the shell step fails, so the steps after it are
    not executed; with the shell step switched off the run completes;
    when the log cannot be opened nothing runs. *)
Example shell_failure_run :
  runInstallation shellFails
    (withSteps (flipEnabled <$> sampleSteps) idleModel) noDotfiles tt
  = Some (Build_RunResult unit (failureMsg "shell" "zsh is not installed")
            ["shell"] noDotfiles tt)
  /\ runInstallation shellFails idleModel noDotfiles tt
     = Some (Build_RunResult unit (successMsg noDotfiles)
               ["homebrew"; "verify"] noDotfiles tt)
  /\ runInstallation logFails idleModel noDotfiles tt = None.
Proof. repeat split; reflexivity. Qed.

(** The completion text is taken from the global dotfiles status, which
    only the dotfiles step assigns. *)
Lemma runAction_keeps_status {W} (acts : Installer W) (id : string)
  (executed : list string) (ds : DotfilesStatus) (w : W) :
  id <> "dotfiles" ->
  snd (fst (runAction acts id executed ds w)) = ds.
Proof.
  intros Hid. unfold runAction. apply String.eqb_neq in Hid.
  destruct (String.eqb id "homebrew");
    [now destruct (installHomebrew acts w)|].
  destruct (String.eqb id "terminal");
    [now destruct (configureTerminal acts w)|].
  destruct (String.eqb id "shell");
    [now destruct (configureShell acts w)|].
  destruct (String.eqb id "devtools");
    [now destruct (installDevTools acts w)|].
  rewrite Hid.
  destruct (String.eqb id "verify");
    [now destruct (verifyInstallation acts executed w) | reflexivity].
Qed.

Lemma installLoop_status {W} (acts : Installer W) (l : list SetupStep) :
  forall (executed : list string) (ds : DotfilesStatus) (w : W),
    (InstallMsg.Error (resultMsg (installLoop acts l executed ds w)) = None ->
     resultMsg (installLoop acts l executed ds w)
     = successMsg (dotfilesStatus (installLoop acts l executed ds w)))
    /\ (Forall (fun st => SetupStep.Enabled st = true ->
                          SetupStep.ID st <> "dotfiles") l ->
        dotfilesStatus (installLoop acts l executed ds w) = ds).
Proof.
  induction l as [|s l IH]; intros executed ds w; cbn [installLoop].
  - split; reflexivity.
  - destruct (SetupStep.Enabled s) eqn:Hen; simpl negb; cbv iota.
    + pose proof (runAction_keeps_status acts (SetupStep.ID s)
                    (executed ++ [SetupStep.ID s]) ds w) as Hkeep.
      destruct (runAction acts (SetupStep.ID s)
                  (executed ++ [SetupStep.ID s]) ds w)
        as [[[e|] ds'] w']; simpl in Hkeep.
      * split; [discriminate|]. intros Hall. inversion Hall; subst.
        simpl. apply Hkeep. auto.
      * destruct (IH (executed ++ [SetupStep.ID s])%list ds' w') as [H1 H2].
        split; [exact H1|]. intros Hall. inversion Hall as [|? ? Hs Hrest]; subst.
        rewrite (H2 Hrest). apply Hkeep. auto.
    + destruct (IH executed ds w) as [H1 H2].
      split; [exact H1|]. intros Hall. inversion Hall; subst. auto.
Qed.

(** X18: the completion text of a run reports the dotfiles status as
    the run leaves it, and a run without an enabled dotfiles step
    leaves the status it found: the status is never reset, so such a
    run repeats the "dotfiles not found" count of the last run that did
    restore dotfiles. *)
Theorem completion_text_uses_global_status {W} (acts : Installer W)
  (m : Model) (ds : DotfilesStatus) (w : W) (r : RunResult W) :
  runInstallation acts m ds w = Some r ->
  (InstallMsg.Error (resultMsg r) = None ->
   InstallMsg.Message (resultMsg r) = successText (dotfilesStatus r))
  /\ (Forall (fun st => SetupStep.Enabled st = true ->
                        SetupStep.ID st <> "dotfiles") (steps m) ->
      dotfilesStatus r = ds).
Proof.
  unfold runInstallation. destruct (initLogger acts w) as [w1|];
    [|discriminate].
  intros Hr. injection Hr as <-.
  destruct (installLoop_status acts (steps m) [] ds w1) as [Hmsg Hkeep].
  split; [|exact Hkeep].
  intros Hnone. now rewrite (Hmsg Hnone).
Qed.

Lemma completion_text_uses_global_status_witness :
  exists r,
    runInstallation shellFails idleModel
      {| CopiedFiles := []; MissingFiles := [".vimrc"; ".gitconfig"];
         IsCleanInstall := true |} tt = Some r
    /\ InstallMsg.Message (resultMsg r)
       = "Clean install complete! (2 dotfiles not found)".
Proof.
  eexists. split; [reflexivity|].
  destruct (completion_text_uses_global_status shellFails idleModel
              {| CopiedFiles := []; MissingFiles := [".vimrc"; ".gitconfig"];
                 IsCleanInstall := true |} tt _ eq_refl) as [Hmsg Hkeep].
  rewrite (Hmsg eq_refl), Hkeep; [reflexivity|].
  repeat constructor; intros _; discriminate.
Defined.

(** X19: the notification of a configuration-load failure refuses the
    start key only while it shows: once dismissed with enter, "s"
    starts an installation over the empty registry.  That run, when it
    can open its log, executes nothing and returns the completion
    message, so the success notification follows; when it cannot, the
    process ends. *)
Theorem config_error_start_after_dismiss {W} (acts : Installer W)
  (cfg : option InstallConfig) (e : string) (ds : DotfilesStatus) (w : W) :
  let m0 := NewModel (cfg, Some e) in
  let m1 := step m0 (KeyMsg "enter") in
  let m2 := withInstalling true m1 in
  Update m0 (KeyMsg "s") = (m0, CmdNil)
  /\ notification m1 = None
  /\ Update m1 (KeyMsg "s") = (m2, StartInstallation m2)
  /\ (initLogger acts w = None -> runInstallation acts m2 ds w = None)
  /\ (forall w1, initLogger acts w = Some w1 ->
        exists r,
          runInstallation acts m2 ds w = Some r
          /\ resultMsg r = successMsg ds
          /\ executedSteps r = []
          /\ showsNotification "success"
               (step m2 (InstallEvent (resultMsg r)))).
Proof.
  cbn zeta. split; [reflexivity|]. split; [reflexivity|].
  split; [reflexivity|]. unfold runInstallation. split.
  - now intros ->.
  - intros w1 ->. eexists. split; [reflexivity|]. simpl.
    split; [reflexivity|]. split; [reflexivity|].
    exists completeNotification. split; [|reflexivity].
    unfold step. simpl fst. rewrite foldInstallMsg_notification.
    change (InstallMsg.Message (successMsg ds)) with (successText ds).
    now rewrite successText_complete.
Qed.

(** ** Verification and dotfiles *)

Lemma existsb_eqb_In (tool : string) (l : list string) :
  existsb (String.eqb tool) l = true <-> In tool l.
Proof. apply keyIs_true. Qed.

Lemma uniqueLoop_spec (tools : list string) :
  forall toolSet uniqueTools : list string,
    (forall t, In t toolSet <-> In t uniqueTools) ->
    List.NoDup uniqueTools ->
    exists r,
      uniqueLoop tools toolSet uniqueTools = (uniqueTools ++ r)%list
      /\ List.NoDup (uniqueTools ++ r)
      /\ sublist r tools
      /\ forall t, In t (uniqueTools ++ r) <-> In t uniqueTools \/ In t tools.
Proof.
  induction tools as [|tool rest IH]; intros toolSet uniq Hset Hnd; simpl.
  - exists []. rewrite app_nil_r.
    split; [reflexivity|]. split; [exact Hnd|]. split; [constructor|].
    intros t. split; [auto | intros [H|[]]; exact H].
  - destruct (existsb (String.eqb tool) toolSet) eqn:Hin; simpl.
    + apply existsb_eqb_In in Hin. apply Hset in Hin.
      destruct (IH toolSet uniq Hset Hnd) as (r & Heq & Hndr & Hsub & Hmem).
      exists r. repeat split; auto.
      * now apply sublist_cons.
      * intros Ht. apply Hmem in Ht. tauto.
      * intros [Ht|[<-|Ht]]; apply Hmem; auto.
    + assert (Hnot : ~ In tool uniq).
      { intros Hu. apply Hset in Hu. apply existsb_eqb_In in Hu. congruence. }
      destruct (IH (tool :: toolSet) (uniq ++ [tool])%list)
        as (r & Heq & Hndr & Hsub & Hmem).
      * intros t. simpl. rewrite in_app_iff, Hset. simpl. tauto.
      * apply NoDup_ListNoDup. apply NoDup_app. repeat split.
        -- now apply NoDup_ListNoDup.
        -- intros x Hx Hx'. apply list_elem_of_In in Hx, Hx'.
           destruct Hx' as [<-|[]]. contradiction.
        -- apply NoDup_singleton.
      * exists (tool :: r). rewrite <- app_assoc in Heq, Hndr, Hmem.
        simpl in Heq, Hndr, Hmem. repeat split; auto.
        -- now apply sublist_skip.
        -- intros Ht. apply Hmem in Ht. rewrite in_app_iff in Ht.
           simpl in Ht. tauto.
        -- intros Ht. apply Hmem. rewrite in_app_iff. simpl. tauto.
Qed.

Lemma uniqueToolsOf_spec (tools : list string) :
  List.NoDup (uniqueToolsOf tools)
  /\ sublist (uniqueToolsOf tools) tools
  /\ forall t, In t (uniqueToolsOf tools) <-> In t tools.
Proof.
  unfold uniqueToolsOf.
  destruct (uniqueLoop_spec tools [] []) as (r & Heq & Hnd & Hsub & Hmem);
    [tauto | constructor |].
  rewrite Heq. simpl in *. repeat split; auto.
  - intros Ht. apply Hmem in Ht. tauto.
  - intros Ht. apply Hmem. auto.
Qed.

Lemma uniqueLoop_extends (tools : list string) :
  forall toolSet uniqueTools : list string,
    exists r, uniqueLoop tools toolSet uniqueTools = (uniqueTools ++ r)%list.
Proof.
  induction tools as [|tool rest IH]; intros toolSet uniq; simpl.
  - exists []. now rewrite app_nil_r.
  - destruct (existsb (String.eqb tool) toolSet); simpl.
    + apply IH.
    + destruct (IH (tool :: toolSet) (uniq ++ [tool])%list) as (r & Hr).
      exists (tool :: r). rewrite Hr, <- app_assoc. reflexivity.
Qed.

(** The loop appends a tool at its first appearance: what it has
    appended before is what appeared before. *)
Lemma uniqueLoop_first (tools : list string) :
  forall (toolSet uniqueTools pre : list string) (t : string)
         (post : list string),
    (forall x, In x toolSet <-> In x uniqueTools) ->
    tools = (pre ++ t :: post)%list ->
    ~ In t pre -> ~ In t uniqueTools ->
    exists rpre rpost,
      uniqueLoop tools toolSet uniqueTools
      = (uniqueTools ++ rpre ++ t :: rpost)%list
      /\ (forall x, In x rpre -> In x pre)
      /\ (forall x, In x pre -> In x uniqueTools \/ In x rpre).
Proof.
  induction tools as [|tool rest IH];
    intros toolSet uniq pre t post Hset Heq Hpre Huniq.
  - destruct pre; discriminate Heq.
  - destruct pre as [|p pre']; simpl in Heq; injection Heq as -> ->; simpl.
    + assert (Hin : existsb (String.eqb t) toolSet = false).
      { destruct (existsb (String.eqb t) toolSet) eqn:Hin; [|reflexivity].
        apply existsb_eqb_In in Hin. apply Hset in Hin. contradiction. }
      rewrite Hin. simpl.
      destruct (uniqueLoop_extends post (t :: toolSet) (uniq ++ [t])%list)
        as (r & Hr).
      exists [], r. rewrite Hr, <- app_assoc. simpl.
      split; [reflexivity|]. split; intros x [].
    + assert (Hpt : p <> t /\ ~ In t pre') by (simpl in Hpre; tauto).
      destruct Hpt as [Hpt Hpre'].
      destruct (existsb (String.eqb p) toolSet) eqn:Hin; simpl.
      * apply existsb_eqb_In in Hin. apply Hset in Hin.
        destruct (IH toolSet uniq pre' t post Hset eq_refl Hpre' Huniq)
          as (rpre & rpost & Hr & Hsub & Hsup).
        exists rpre, rpost. split; [exact Hr|]. split.
        -- intros x Hx. right. now apply Hsub.
        -- intros x [<-|Hx]; [now left | now apply Hsup].
      * destruct (IH (p :: toolSet) (uniq ++ [p])%list pre' t post)
          as (rpre & rpost & Hr & Hsub & Hsup); [|reflexivity|exact Hpre'| |].
        -- intros x. simpl. rewrite in_app_iff, Hset. simpl. tauto.
        -- rewrite in_app_iff. simpl. tauto.
        -- exists (p :: rpre), rpost. rewrite Hr, <- app_assoc. simpl.
           split; [reflexivity|]. split.
           ++ intros x [<-|Hx]; [now left | right; now apply Hsub].
           ++ intros x [<-|Hx]; [right; now left|].
              destruct (Hsup x Hx) as [Hu|Hr']; [|right; now right].
              apply in_app_iff in Hu. simpl in Hu.
              destruct Hu as [Hu|[<-|[]]]; [now left | right; now left].
Qed.

Lemma uniqueToolsOf_first (tools pre post : list string) (t : string) :
  tools = (pre ++ t :: post)%list -> ~ In t pre ->
  exists rpre rpost,
    uniqueToolsOf tools = (rpre ++ t :: rpost)%list
    /\ forall x, In x rpre <-> In x pre.
Proof.
  intros Heq Hpre. unfold uniqueToolsOf.
  destruct (uniqueLoop_first tools [] [] pre t post) as
    (rpre & rpost & Hr & Hsub & Hsup); [tauto | exact Heq | exact Hpre | auto |].
  exists rpre, rpost. split; [exact Hr|].
  intros x. split; [apply Hsub|]. intros Hx.
  destruct (Hsup x Hx) as [[]|H]. exact H.
Qed.

Example uniqueTools_sample :
  uniqueToolsOf ["brew"; "zsh"; "brew"; "git"; "zsh"] = ["brew"; "zsh"; "git"].
Proof. reflexivity. Qed.

Lemma len_pos_iff {A} (l : list A) : (0 <? GoInt.len l)%Z = true <-> l <> [].
Proof.
  unfold GoInt.len. rewrite Z.ltb_lt. destruct l; simpl; split;
    try congruence; lia.
Qed.

(** X20: [verifyInstallation] checks each tool of the enabled sections
    once.  For a configuration that loads, it returns no error exactly
    when [exec.LookPath] finds every collected tool, and then hands the
    report the collected tools without repetition, in their order of
    first appearance (a tool stands after exactly the tools that
    appear before its first appearance), and the executed steps
    followed by "verify"; when a tool is missing it writes no report
    and its error names the missing tools, each once. *)
Theorem verifyInstallation_outcome (fs : FileSystem)
  (lookPath : string -> bool) (executed : list string) (c : InstallConfig) :
  LoadConfig fs = (Some c, None) ->
  let r := verifyInstallationWith fs lookPath executed in
  (fst r = None
   <-> forall tool, In tool (collectTools c) -> lookPath tool = true)
  /\ (fst r = None ->
      exists tools,
        snd r = Some (tools, (executed ++ ["verify"])%list)
        /\ List.NoDup tools /\ sublist tools (collectTools c)
        /\ (forall t, In t tools <-> In t (collectTools c))
        /\ (forall pre t post,
              collectTools c = (pre ++ t :: post)%list -> ~ In t pre ->
              exists rpre rpost,
                tools = (rpre ++ t :: rpost)%list
                /\ forall x, In x rpre <-> In x pre))
  /\ (forall e, fst r = Some e ->
      snd r = None
      /\ exists failures,
           e = "verification failed for: " ++ Join failures ", "
           /\ List.NoDup failures
           /\ forall t, In t failures
                <-> In t (collectTools c) /\ lookPath t = false).
Proof.
  intros Hload. cbn zeta. unfold verifyInstallationWith. rewrite Hload.
  destruct (uniqueToolsOf_spec (collectTools c)) as (Hnd & Hsub & Hmem).
  set (tools := uniqueToolsOf (collectTools c)) in *.
  assert (Hfail : forall t, In t (failuresOf lookPath tools)
                    <-> In t (collectTools c) /\ lookPath t = false).
  { intros t. unfold failuresOf. rewrite filter_In, Hmem.
    now rewrite negb_true_iff. }
  destruct (0 <? GoInt.len (failuresOf lookPath tools))%Z eqn:Hpos; simpl.
  - apply len_pos_iff in Hpos. split; [|split].
    + split; [discriminate|]. intros Hall. exfalso. apply Hpos.
      destruct (failuresOf lookPath tools) as [|t ts] eqn:Hf; [reflexivity|].
      assert (Ht : In t (t :: ts)) by now left.
      apply Hfail in Ht. destruct Ht as [Hin Hno].
      rewrite (Hall t Hin) in Hno. discriminate.
    + discriminate.
    + intros e He. injection He as <-. split; [reflexivity|].
      exists (failuresOf lookPath tools). split; [reflexivity|].
      split; [|exact Hfail]. unfold failuresOf. now apply List.NoDup_filter.
  - assert (Hnil : failuresOf lookPath tools = []).
    { destruct (failuresOf lookPath tools) eqn:Hf; [reflexivity|].
      assert (Hne : failuresOf lookPath tools <> []) by (rewrite Hf; discriminate).
      apply len_pos_iff in Hne. rewrite Hf in Hne. congruence. }
    split; [|split].
    + split; [|reflexivity]. intros _ tool Hin.
      destruct (lookPath tool) eqn:Hl; [reflexivity|].
      assert (Hin' : In tool (failuresOf lookPath tools)) by now apply Hfail.
      rewrite Hnil in Hin'. destruct Hin'.
    + intros _. exists tools. split; [reflexivity|]. split; [exact Hnd|].
      split; [exact Hsub|]. split; [exact Hmem|].
      intros pre t post Heq Hpre.
      now apply (uniqueToolsOf_first (collectTools c) pre post t).
    + discriminate.
Qed.

Lemma verifyInstallation_outcome_witness :
  LoadConfig (homeOnly (inl dotfilesConfig)) = (Some dotfilesConfig, None)
  /\ verifyInstallationWith (homeOnly (inl dotfilesConfig))
       (fun _ => true) ["homebrew"; "shell"]
     = (None, Some (["brew"; "zsh"], ["homebrew"; "shell"; "verify"]))
  /\ fst (verifyInstallationWith (homeOnly (inl dotfilesConfig))
            (fun tool => String.eqb tool "brew") [])
     = Some "verification failed for: zsh".
Proof.
  assert (Hload : LoadConfig (homeOnly (inl dotfilesConfig))
                  = (Some dotfilesConfig, None)) by reflexivity.
  destruct (verifyInstallation_outcome (homeOnly (inl dotfilesConfig))
              (fun _ => true) ["homebrew"; "shell"] dotfilesConfig Hload)
    as (Hiff & _ & _).
  split; [exact Hload|]. split; [|reflexivity].
  assert (Hok : fst (verifyInstallationWith (homeOnly (inl dotfilesConfig))
                       (fun _ => true) ["homebrew"; "shell"]) = None)
    by (apply Hiff; reflexivity).
  reflexivity.
Defined.

Lemma copyLoop_result {W} (calls : CopyCalls W)
  (join : list string -> string) (cd hd : string)
  (mappings : list (string * string)) :
  forall copied missing copied' missing' (w w' : W),
    copyLoop calls join cd hd mappings copied missing w
    = (inr (copied', missing'), w') ->
    exists cs ms,
      copied' = (copied ++ cs)%list /\ missing' = (missing ++ ms)%list
      /\ Permutation (cs ++ ms) (fst <$> mappings)
      /\ sublist cs (fst <$> mappings) /\ sublist ms (fst <$> mappings).
Proof.
  induction mappings as [|[src dest] rest IH];
    intros copied missing c' m' w w' Hloop.
  - simpl in Hloop. injection Hloop as <- <- <-. exists [], [].
    rewrite !app_nil_r. repeat split; constructor.
  - cbn [copyLoop] in Hloop. rewrite fmap_cons. cbn [fst].
    destruct (statDir calls w (join [cd; src])) as [isDir|].
    + destruct (if isDir
                then let '(err, w0) := copyDir calls w (join [cd; src])
                                         (join [hd; dest]) in
                     (option_map _ err, w0)
                else let '(err, w0) := copyFile calls w (join [cd; src])
                                         (join [hd; dest]) in
                     (option_map _ err, w0)) as [[e|] w1];
        [discriminate|].
      apply IH in Hloop.
      destruct Hloop as (cs & ms & -> & -> & Hperm & Hcs & Hms).
      exists (src :: cs), ms. rewrite <- app_assoc.
      split; [reflexivity|]. split; [reflexivity|]. split; [|split].
      * simpl. now constructor.
      * now apply sublist_skip.
      * now apply sublist_cons.
    + apply IH in Hloop.
      destruct Hloop as (cs & ms & -> & -> & Hperm & Hcs & Hms).
      exists cs, (src :: ms). rewrite <- app_assoc.
      split; [reflexivity|]. split; [reflexivity|]. split; [|split].
      * rewrite <- Permutation_middle. now constructor.
      * now apply sublist_cons.
      * now apply sublist_skip.
Qed.

(** X21: [restoreDotfiles] assigns the global dotfiles status only when
    it succeeds with the dotfiles section enabled: a disabled section or
    any error leaves the status as it was.  The status it assigns puts
    every mapping source in exactly one of its two lists, copied or
    missing, each in mapping order, and its IsCleanInstall flag is set
    exactly when some source is missing. *)
Theorem restoreDotfiles_status {W} (fs : FileSystem) (calls : CopyCalls W)
  (cd hd : string) (ds : DotfilesStatus) (w : W) (c : InstallConfig) :
  LoadConfig fs = (Some c, None) ->
  let r := fst (restoreDotfilesWith fs calls cd hd ds w) in
  (DotfilesConfig_Install (Dotfiles c) = false -> r = (None, ds))
  /\ (fst r <> None -> snd r = ds)
  /\ (DotfilesConfig_Install (Dotfiles c) = true -> fst r = None ->
      Permutation (CopiedFiles (snd r) ++ MissingFiles (snd r))
        (fst <$> Mappings (Dotfiles c))
      /\ sublist (CopiedFiles (snd r)) (fst <$> Mappings (Dotfiles c))
      /\ sublist (MissingFiles (snd r)) (fst <$> Mappings (Dotfiles c))
      /\ (IsCleanInstall (snd r) = true <-> MissingFiles (snd r) <> [])).
Proof.
  intros Hload. cbn zeta. unfold restoreDotfilesWith. rewrite Hload.
  destruct (DotfilesConfig_Install (Dotfiles c)); simpl negb; cbv iota.
  - split; [discriminate|].
    destruct (copyLoop calls (PathJoin fs) cd hd (Mappings (Dotfiles c))
                [] [] w) as [[e|[copied missing]] w'] eqn:Hloop; simpl.
    + split; [reflexivity|]. intros _ Hnone. discriminate.
    + split; [congruence|]. intros _ _.
      apply copyLoop_result in Hloop.
      destruct Hloop as (cs & ms & -> & -> & Hperm & Hcs & Hms). simpl.
      split; [exact Hperm|]. split; [exact Hcs|]. split; [exact Hms|].
      apply len_pos_iff.
  - split; [reflexivity|]. split; [reflexivity|]. discriminate.
Qed.

Lemma restoreDotfiles_status_witness :
  LoadConfig (homeOnly (inl dotfilesConfig)) = (Some dotfilesConfig, None)
  /\ restoreDotfilesWith (homeOnly (inl dotfilesConfig)) firstOnly
       "/work" "/home/u" noDotfiles tt
     = (None, {| CopiedFiles := [".zshrc"]; MissingFiles := [".vimrc"];
                 IsCleanInstall := true |}, tt)
  /\ Permutation [".zshrc"; ".vimrc"]
       (fst <$> Mappings (Dotfiles dotfilesConfig)).
Proof.
  destruct (restoreDotfiles_status (homeOnly (inl dotfilesConfig)) firstOnly
              "/work" "/home/u" noDotfiles tt dotfilesConfig eq_refl)
    as (_ & _ & Hok).
  destruct (Hok eq_refl eq_refl) as (Hperm & _).
  split; [reflexivity|]. split; [reflexivity|]. exact Hperm.
Defined.

(** ** What the message fold keeps and repeats *)

Lemma Model_ext (a b : Model) :
  steps a = steps b -> selectedStep a = selectedStep b ->
  keyboardLayout a = keyboardLayout b -> width a = width b ->
  height a = height b -> installing a = installing b ->
  showHelp a = showHelp b -> currentProgress a = currentProgress b ->
  currentMessage a = currentMessage b -> config a = config b ->
  notification a = notification b -> a = b.
Proof. destruct a, b; simpl; intros; subst; reflexivity. Qed.

Lemma foldInstallMsg_currentMessage (m : Model) (msg : InstallMsg) :
  currentMessage (foldInstallMsg m msg) =
  if negb (String.eqb (InstallMsg.Message msg) EmptyString)
  then InstallMsg.Message msg else currentMessage m.
Proof.
  unfold foldInstallMsg.
  destruct (negb (String.eqb (InstallMsg.StepID msg) EmptyString));
    destruct (InstallMsg.Error msg);
    destruct (0 <? InstallMsg.Progress msg)%Z;
    destruct (negb (String.eqb (InstallMsg.Message msg) EmptyString));
    destruct (Contains (InstallMsg.Message msg) "complete!"); reflexivity.
Qed.

Lemma recordOn_ID (msg : InstallMsg) (s : SetupStep) :
  SetupStep.ID (recordOn msg s) = SetupStep.ID s.
Proof. unfold recordOn. now destruct (InstallMsg.Error msg). Qed.

Lemma markComplete_ID (s : SetupStep) :
  SetupStep.ID (markComplete s) = SetupStep.ID s.
Proof. unfold markComplete. now destruct (SetupStep.Enabled s). Qed.

Lemma recordOn_idem (msg : InstallMsg) (s : SetupStep) :
  recordOn msg (recordOn msg s) = recordOn msg s.
Proof. unfold recordOn. now destruct (InstallMsg.Error msg). Qed.

Lemma markComplete_idem (s : SetupStep) :
  markComplete (markComplete s) = markComplete s.
Proof.
  unfold markComplete. destruct (SetupStep.Enabled s) eqn:E; simpl.
  - now rewrite E.
  - now rewrite E.
Qed.

Lemma mark_record_mark (msg : InstallMsg) (s : SetupStep) :
  markComplete (recordOn msg (markComplete s)) = markComplete (recordOn msg s).
Proof.
  unfold markComplete, recordOn.
  destruct (InstallMsg.Error msg), (SetupStep.Enabled s) eqn:E; simpl;
    rewrite ?E; reflexivity.
Qed.

Lemma recordStatus_idem (msg : InstallMsg) (l : list SetupStep) :
  recordStatus msg (recordStatus msg l) = recordStatus msg l.
Proof.
  induction l as [|s l IH]; [reflexivity|]. cbn [recordStatus].
  destruct (String.eqb (SetupStep.ID s) (InstallMsg.StepID msg)) eqn:E;
    cbn [recordStatus].
  - now rewrite recordOn_ID, E, recordOn_idem.
  - now rewrite E, IH.
Qed.

Lemma completeEnabled_idem (l : list SetupStep) :
  completeEnabled (completeEnabled l) = completeEnabled l.
Proof.
  unfold completeEnabled. rewrite <- list_fmap_compose.
  apply list_fmap_ext. intros i s _. apply markComplete_idem.
Qed.

Lemma complete_record_complete (msg : InstallMsg) (l : list SetupStep) :
  completeEnabled (recordStatus msg (completeEnabled l))
  = completeEnabled (recordStatus msg l).
Proof.
  unfold completeEnabled.
  induction l as [|s l IH]; [reflexivity|].
  rewrite fmap_cons. cbn [recordStatus]. rewrite markComplete_ID.
  destruct (String.eqb (SetupStep.ID s) (InstallMsg.StepID msg)).
  - rewrite !fmap_cons, mark_record_mark. f_equal.
    fold (completeEnabled l). fold (completeEnabled (completeEnabled l)).
    apply completeEnabled_idem.
  - rewrite !fmap_cons, markComplete_idem. f_equal. exact IH.
Qed.

(** X22: folding the same progress/result message a second time changes
    nothing: a message delivered twice leaves the state the first
    delivery produced. *)
Theorem fold_is_idempotent (m : Model) (msg : InstallMsg) :
  step (step m (InstallEvent msg)) (InstallEvent msg)
  = step m (InstallEvent msg).
Proof.
  unfold step. simpl.
  destruct (foldInstallMsg_untouched (foldInstallMsg m msg) msg)
    as (Hsel & Hlay & Hhelp & Hw & Hh & Hcfg & _).
  apply Model_ext; try assumption.
  - rewrite (foldInstallMsg_steps (foldInstallMsg m msg)).
    unfold afterRecord at 1 2. rewrite (foldInstallMsg_steps m msg).
    unfold afterRecord.
    destruct (negb (String.eqb (InstallMsg.StepID msg) EmptyString));
      destruct (Contains (InstallMsg.Message msg) "complete!").
    + rewrite complete_record_complete, recordStatus_idem.
      reflexivity.
    + apply recordStatus_idem.
    + apply completeEnabled_idem.
    + reflexivity.
  - rewrite (foldInstallMsg_installing (foldInstallMsg m msg)).
    rewrite (foldInstallMsg_installing m msg).
    destruct (Contains (InstallMsg.Message msg) "complete!"); [reflexivity|].
    now destruct (InstallMsg.Error msg).
  - rewrite (foldInstallMsg_currentProgress (foldInstallMsg m msg)).
    rewrite (foldInstallMsg_currentProgress m msg).
    destruct (Contains (InstallMsg.Message msg) "complete!"); [reflexivity|].
    now destruct (0 <? InstallMsg.Progress msg)%Z.
  - rewrite (foldInstallMsg_currentMessage (foldInstallMsg m msg)).
    rewrite (foldInstallMsg_currentMessage m msg).
    now destruct (negb (String.eqb (InstallMsg.Message msg) EmptyString)).
  - rewrite (foldInstallMsg_notification (foldInstallMsg m msg)).
    rewrite (foldInstallMsg_notification m msg).
    destruct (Contains (InstallMsg.Message msg) "complete!"); [reflexivity|].
    now destruct (InstallMsg.Error msg).
Qed.


Lemma step_keeps_error_text (m : Model) (msg : Msg) (i : nat)
  (st : SetupStep) :
  steps m !! i = Some st ->
  exists st', steps (step m msg) !! i = Some st'
    /\ (SetupStep.Error st' = SetupStep.Error st
        \/ exists im e, msg = InstallEvent im
             /\ InstallMsg.Error im = Some e
             /\ InstallMsg.StepID im = SetupStep.ID st
             /\ SetupStep.Error st' = e).
Proof.
  intros Hi. destruct msg as [w h|key|im|]; try (exists st; now auto).
  - destruct (keyOutcomes_untouched m (step m (KeyMsg key))
                (handleKeypress_outcomes m key)) as (_ & _ & _ & _ & _ & _ & He).
    assert (Hl : (SetupStep.Error <$> steps (step m (KeyMsg key))) !! i
                 = (SetupStep.Error <$> steps m) !! i) by now rewrite He.
    rewrite !list_lookup_fmap, Hi in Hl.
    destruct (steps (step m (KeyMsg key)) !! i) as [st'|]; [|discriminate].
    exists st'. split; [reflexivity|]. left. simpl in Hl. congruence.
  - unfold step. simpl. rewrite foldInstallMsg_steps.
    assert (Hrec : exists st1, afterRecord m im !! i = Some st1
              /\ (st1 = st
                  \/ (st1 = recordOn im st
                      /\ SetupStep.ID st = InstallMsg.StepID im))).
    { unfold afterRecord.
      destruct (negb (String.eqb (InstallMsg.StepID im) EmptyString));
        [|exists st; now auto].
      clear -Hi. revert i Hi.
      induction (steps m) as [|a l IH]; intros i Hi; [discriminate|].
      cbn [recordStatus].
      destruct (String.eqb (SetupStep.ID a) (InstallMsg.StepID im)) eqn:E.
      - destruct i as [|i]; simpl in *.
        + injection Hi as <-. apply String.eqb_eq in E. eauto.
        + eauto.
      - destruct i as [|i]; simpl in *; [eauto | now apply IH]. }
    destruct Hrec as (st1 & H1 & Hcases).
    assert (Herr : SetupStep.Error st1 = SetupStep.Error st
              \/ exists e, InstallMsg.Error im = Some e
                   /\ InstallMsg.StepID im = SetupStep.ID st
                   /\ SetupStep.Error st1 = e).
    { destruct Hcases as [->|[-> Hid]]; [now left|].
      unfold recordOn. destruct (InstallMsg.Error im) as [e|]; [|now left].
      right. exists e. now repeat split. }
    destruct (Contains (InstallMsg.Message im) "complete!").
    + exists (markComplete st1). split.
      * rewrite completeEnabled_lookup, H1. reflexivity.
      * rewrite markComplete_Error.
        destruct Herr as [?|(e & ? & ? & ?)]; [now left|].
        right. exists im, e. now repeat split.
    + exists st1. split; [exact H1|].
      destruct Herr as [?|(e & ? & ? & ?)]; [now left|].
      right. exists im, e. now repeat split.
Qed.

(** X23: the error text of a step is written only by a progress/result
    event that carries an error and the step's identifier, and nothing
    clears it: every other event, a completion message included, leaves
    the text as it was.  So a step that failed once keeps its error
    text when a later run marks it Complete. *)
Theorem error_text_is_never_cleared (msgs : list Msg) :
  forall (m : Model) (i : nat) (st : SetupStep),
    steps m !! i = Some st ->
    Forall (fun msg =>
              match msg with
              | InstallEvent im =>
                  InstallMsg.Error im = None
                  \/ InstallMsg.StepID im <> SetupStep.ID st
              | _ => True
              end) msgs ->
    exists st', steps (run m msgs) !! i = Some st'
      /\ SetupStep.Error st' = SetupStep.Error st
      /\ SetupStep.ID st' = SetupStep.ID st.
Proof.
  induction msgs as [|msg msgs IH]; intros m i st Hi Hall.
  - exists st. now repeat split.
  - inversion Hall as [|? ? Hmsg Hrest]; subst.
    change (run m (msg :: msgs)) with (run (step m msg) msgs).
    destruct (step_keeps_error_text m msg i st Hi) as (st1 & H1 & Hcases).
    assert (Hid : SetupStep.ID st1 = SetupStep.ID st).
    { pose proof (step_identity m msg) as Hsame.
      pose proof (proj1 (Forall2_lookup _ _ _) Hsame i) as Hrel.
      rewrite Hi, H1 in Hrel. inversion Hrel as [? ? Hb|]; subst.
      apply (f_equal SetupStep.ID) in Hb. exact Hb. }
    assert (Herr : SetupStep.Error st1 = SetupStep.Error st).
    { destruct Hcases as [?|(im & e & -> & He & Hsid & _)]; [assumption|].
      destruct Hmsg as [Hnone|Hne]; congruence. }
    destruct (IH (step m msg) i st1 H1) as (st' & H' & He' & Hid').
    + eapply Forall_impl; [exact Hrest|]. intros [| |im|]; auto.
      rewrite Hid. auto.
    + exists st'. split; [exact H'|]. split; congruence.
Qed.

Lemma error_text_is_never_cleared_witness :
  exists st',
    steps (run (step installingModel (InstallEvent failedMsg))
             [KeyMsg "enter"; KeyMsg "s"; InstallEvent completeMsg]) !! 0%nat
    = Some st'
    /\ SetupStep.Error st' = "exit status 1"
    /\ SetupStep.Status st' = StatusComplete.
Proof.
  destruct (error_text_is_never_cleared
              [KeyMsg "enter"; KeyMsg "s"; InstallEvent completeMsg]
              (step installingModel (InstallEvent failedMsg)) 0%nat
              (recordOn failedMsg (sampleStep "homebrew" true)) eq_refl)
    as (st' & H' & He & _).
  - repeat constructor.
  - exists st'. split; [exact H'|]. split; [exact He|].
    vm_compute in H'. injection H' as <-. reflexivity.
Defined.

(** X24: the installing flag gates the start key and nothing else:
    every other key is handled, while an installation runs, exactly as
    when none does (steps can still be toggled, the selection moved, a
    notification dismissed), and it leaves the flag as it found it. *)
Theorem installing_gates_start_only (m : Model) (key : string) (b : bool) :
  keyIs key ["s"; "S"] = false ->
  fst (handleKeypress (withInstalling b m) key)
  = withInstalling b (fst (handleKeypress m key))
  /\ installing (fst (handleKeypress m key)) = installing m
  /\ (snd (handleKeypress (withInstalling b m) key) = Quit
      <-> snd (handleKeypress m key) = Quit)
  /\ (forall m', snd (handleKeypress m key) <> StartInstallation m').
Proof.
  intros Hk. unfold handleKeypress, keyIs, toggleStep in *.
  simpl existsb in *.
  apply orb_false_elim in Hk. destruct Hk as [Hs HS].
  apply orb_false_elim in HS. destruct HS as [HS _].
  rewrite ?Hs, ?HS. simpl.
  destruct (notification m) eqn:Hn, (keyboardLayout m) eqn:Hl; simpl;
    key_cases key; simpl;
    unfold selectPrevious, selectNext; simpl;
    repeat match goal with
           | |- context [if ?c then _ else _] => destruct c; simpl
           end;
    repeat split; try discriminate; try tauto; try reflexivity;
    intros; discriminate.
Qed.


Lemma installing_gates_start_only_witness :
  keyIs " " ["s"; "S"] = false
  /\ fst (handleKeypress installingModel " ")
     = withInstalling true
         (fst (handleKeypress (withCurrentProgress 50 idleModel) " "))
  /\ steps (fst (handleKeypress installingModel " ")) !! 1%nat
     = Some (sampleStep "shell" true).
Proof.
  destruct (installing_gates_start_only
              (withCurrentProgress 50 idleModel) " " true eq_refl)
    as (Hsame & _).
  split; [reflexivity|]. split; [|reflexivity].
  exact Hsame.
Defined.

(** ** The detail pane and the banner *)

Lemma detailsStep_valid (m : Model) :
  selectionValid m ->
  detailsStep m = steps m !! Z.to_nat (selectedStep m)
  /\ is_Some (detailsStep m).
Proof.
  unfold selectionValid, detailsStep, GoInt.len. intros Hsel.
  replace (selectedStep m <? 0)%Z with false by (symmetry; apply Z.ltb_ge; lia).
  replace (Z.of_nat (length (steps m)) <=? selectedStep m)%Z with false
    by (symmetry; apply Z.leb_gt; lia).
  simpl. split; [reflexivity|]. apply lookup_lt_is_Some_2. lia.
Qed.

Lemma detailsStep_empty (m : Model) : steps m = [] -> detailsStep m = None.
Proof.
  intros Hnil. unfold detailsStep, GoInt.len. rewrite Hnil.
  destruct (selectedStep m <? 0)%Z eqn:Hneg; [reflexivity|].
  apply Z.ltb_ge in Hneg.
  destruct (Z.of_nat (length (@nil SetupStep)) <=? selectedStep m)%Z eqn:Hle;
    [reflexivity|].
  apply Z.leb_gt in Hle. simpl in Hle. lia.
Qed.

(** X25: after a successful load the detail pane shows, in every state
    the program can reach, a step of the registry built at startup
    (with its current status, error text and enabled flag), never the
    text "Invalid selection"; after a failed load it shows "Invalid
    selection" in every state it can reach, since the step list stays
    empty. *)
Theorem details_by_load_outcome (cfg : option InstallConfig)
  (msgs : list Msg) :
  (forall c, cfg = Some c ->
     exists st st0,
       detailsStep (run (NewModel (cfg, None)) msgs) = Some st
       /\ In st0 (getConfigurableSteps cfg)
       /\ sameIdentity st0 st)
  /\ (forall e, detailsStep (run (NewModel (cfg, Some e)) msgs) = None).
Proof.
  split.
  - intros c ->. set (m0 := NewModel (Some c, None)).
    assert (Hsteps : steps m0 = getConfigurableSteps (Some c)) by reflexivity.
    assert (Hvalid : selectionValid (run m0 msgs)).
    { pose proof (registry_length_bounds c) as Hlen. apply run_valid.
      - unfold GoInt.sliceOk, GoInt.maxInt, GoInt.len. rewrite Hsteps. lia.
      - unfold selectionValid, GoInt.len. rewrite Hsteps.
        change (selectedStep m0) with 0%Z. lia. }
    destruct (detailsStep_valid _ Hvalid) as [Heq [st Hst]].
    rewrite Heq in Hst.
    destruct (Forall2_lookup_r _ _ _ _ _ (run_identity msgs m0) Hst)
      as (st0 & H0 & Hsame).
    exists st, st0. split; [now rewrite Heq|]. split; [|exact Hsame].
    rewrite <- Hsteps. apply list_elem_of_In.
    eapply list_elem_of_lookup_2. exact H0.
  - intros e. apply detailsStep_empty.
    pose proof (run_identity msgs (NewModel (cfg, Some e))) as Hrun.
    apply Forall2_length in Hrun.
    change (length (steps (NewModel (cfg, Some e)))) with 0%nat in Hrun.
    symmetry in Hrun. now apply nil_length_inv.
Qed.

Lemma details_by_load_outcome_witness :
  detailsStep
    (run (NewModel (Some sampleConfig, None))
       [KeyMsg "e"; KeyMsg "e"; KeyMsg " "; KeyMsg "u"])
  = Some (homebrewStep sampleConfig).
Proof.
  destruct (details_by_load_outcome (Some sampleConfig)
              [KeyMsg "e"; KeyMsg "e"; KeyMsg " "; KeyMsg "u"])
    as [Hshown _].
  destruct (Hshown sampleConfig eq_refl) as (st & st0 & Hst & _).
  reflexivity.
Defined.

Lemma Contains_newline_cons (a : ascii) (s : string) :
  Contains (String a s) newline
  = Ascii.eqb a (ascii_of_nat 10) || Contains s newline.
Proof.
  cbn [Contains]. f_equal. unfold newline. cbn [HasPrefix].
  destruct s; now rewrite andb_true_r.
Qed.

Lemma Contains_newline_app (a b : string) :
  Contains (a ++ b) newline = Contains a newline || Contains b newline.
Proof.
  induction a as [|c a IH].
  - reflexivity.
  - change (String c a ++ b) with (String c (a ++ b)).
    now rewrite !Contains_newline_cons, IH, orb_assoc.
Qed.

Lemma replaceFuel_no_newline (fuel : nat) : forall s : string,
  Contains (replaceFuel fuel s newline " ") newline = false
  \/ (String.length s > fuel)%nat.
Proof.
  induction fuel as [|fuel IH]; intros s.
  - destruct s; [now left | right; simpl; lia].
  - destruct s as [|a s]; [now left|].
    cbn [replaceFuel].
    assert (Hp : HasPrefix (String a s) newline
                 = Ascii.eqb a (ascii_of_nat 10)).
    { unfold newline. cbn [HasPrefix]. destruct s; now rewrite andb_true_r. }
    rewrite Hp. change (String.length newline) with 1%nat. cbn [dropPrefix].
    destruct (IH s) as [Hs|Hlen]; [|right; simpl; lia]. left.
    destruct (Ascii.eqb a (ascii_of_nat 10)) eqn:Ea.
    + now rewrite Contains_newline_app, Hs.
    + now rewrite Contains_newline_cons, Ea, Hs.
Qed.

(** X26: the text of the notification banner is a single line whenever
    the title is: every line break of the message is replaced by a
    space, whatever the message holds (the error text of a failed step
    included). *)
Theorem banner_is_single_line (n : Notification) :
  Contains (Notification.Title n) newline = false ->
  Contains (bannerContent n) newline = false.
Proof.
  intros Ht. unfold bannerContent.
  rewrite !Contains_newline_app, Ht. simpl orb.
  unfold ReplaceAll. change (String.eqb newline " ") with false. cbv iota.
  destruct (replaceFuel_no_newline
              (String.length (Notification.Message n))
              (Notification.Message n)) as [-> | Hlen]; [reflexivity | lia].
Qed.

Lemma banner_is_single_line_witness :
  Contains (Notification.Message (errorNotification "shell" "exit status 1"))
    newline = true
  /\ Contains (bannerContent (errorNotification "shell" "exit status 1"))
       newline = false
  /\ bannerContent completeNotification
     = "Installation Complete! - Report saved to: ./macdevtui-report.md "
         ++ "Press Enter to dismiss [Press Enter to dismiss]".
Proof.
  split; [reflexivity|]. split; [|reflexivity].
  apply (banner_is_single_line (errorNotification "shell" "exit status 1")).
  reflexivity.
Defined.
